(** * Datetime parsing over a columnar runtime: model and verification

    This development embeds [datetime_parsing.py].  The Python module is a
    pipeline of column expressions evaluated by a columnar data-frame
    runtime.  The pipeline itself (which expressions are built, with which
    arguments, in which order, which columns are added, dropped, filtered
    and selected) is translated from the source.  The runtime's primitives
    are modelled as follows:

    - regular expressions ([str.replace], [str.contains]): a small matcher
      for the fixed-width patterns the source uses, leftmost match first;
      the class [\d] is a parameter of the development, because the
      runtime's [\d] is the Unicode decimal-digit class;
    - [str.to_integer]: base-10 parsing of a signed 64-bit integer;
    - [str.to_datetime]: the pattern language is a parameter
      ([strptime]); only the [strict] flag, which decides between a null
      and a fault, is modelled around it;
    - a timestamp is modelled by the instant it denotes, counted in
      microseconds since the Unix epoch; the storage unit and the
      time-zone tag of a column are not modelled. *)

From Stdlib Require Import ZArith NArith List Bool Ascii String Lia.
From Stdlib Require Import DecimalString.
From stdpp Require Import base option list gmap strings.

Local Open Scope Z_scope.

(** ** Text *)

(** A Python [str] is a sequence of code points. *)
Definition char := N.
Definition text := list char.

(** The text of an ASCII literal of the source. *)
Definition lit (s : string) : text := map N_of_ascii (list_ascii_of_string s).

Definition is_ascii_digit (c : char) : bool := (48 <=? c)%N && (c <=? 57)%N.

(** ** Regular expressions of fixed width

    The patterns of the source are [" UTC$"], [" GMT$"], ["Z$"],
    ["^\d{10}$"] and ["^\d{13}$"]: a sequence of one-character classes,
    optionally anchored at either end. *)

Definition char_class := char -> bool.

Definition chr (c : char) : char_class := N.eqb c.

Record regex := Regex {
  anchor_start : bool;
  body : list char_class;
  anchor_end : bool
}.

(** [match_body cs s]: the classes [cs] match a prefix of [s]; the result is
    what follows the match. *)
Fixpoint match_body (cs : list char_class) (s : text) : option text :=
  match cs with
  | [] => Some s
  | k :: cs' =>
      match s with
      | [] => None
      | c :: s' => if k c then match_body cs' s' else None
      end
  end.

(** A match starting at the head of [s]; [$] holds at the end of the text
    only. *)
Definition match_at (re : regex) (s : text) : option text :=
  match match_body (body re) s with
  | Some [] => Some []
  | Some (c :: r) => if anchor_end re then None else Some (c :: r)
  | None => None
  end.

(** Leftmost match: the text before the match and the text after it. *)
Fixpoint search (re : regex) (s : text) : option (text * text) :=
  match match_at re s with
  | Some r => Some ([], r)
  | None =>
      match s with
      | [] => None
      | c :: s' =>
          match search re s' with
          | Some (p, r) => Some (c :: p, r)
          | None => None
          end
      end
  end.

Definition find (re : regex) (s : text) : option (text * text) :=
  if anchor_start re then
    match match_at re s with
    | Some r => Some ([], r)
    | None => None
    end
  else search re s.

(** [str.contains(pattern)] on one value. *)
Definition re_contains (re : regex) (s : text) : bool :=
  match find re s with Some _ => true | None => false end.

(** [str.replace(pattern, value)] on one value: the first match only. *)
Definition re_replace (re : regex) (v : text) (s : text) : text :=
  match find re s with
  | Some (p, r) => p ++ v ++ r
  | None => s
  end.

(** The pattern [lit$] for a literal [l]. *)
Definition re_suffix (l : string) : regex :=
  Regex false (map chr (lit l)) true.

(** The pattern [^\d{n}$], for a given class [\d]. *)
Definition re_digits (d : char_class) (n : nat) : regex :=
  Regex true (replicate n d) true.

(** ** Normalisation of textual time zones

    [parse_datetimes_multi_format], the three chained [str.replace] calls,
    on one value. *)
Definition normalize (s : text) : text :=
  re_replace (re_suffix "Z") (lit "+00:00")
    (re_replace (re_suffix " GMT") (lit "+00:00")
       (re_replace (re_suffix " UTC") (lit "+00:00") s)).

(** ** Integers *)

Definition wrap64 (z : Z) : Z := (z + 2 ^ 63) mod 2 ^ 64 - 2 ^ 63.

Definition digit_val (c : char) : option Z :=
  if is_ascii_digit c then Some (Z.of_N c - 48) else None.

Fixpoint parse_digits (acc : Z) (s : text) : option Z :=
  match s with
  | [] => Some acc
  | c :: s' =>
      match digit_val c with
      | Some d => parse_digits (acc * 10 + d) s'
      | None => None
      end
  end.

Definition in_i64 (z : Z) : bool := (- 2 ^ 63 <=? z) && (z <? 2 ^ 63).

Definition check_i64 (o : option Z) : option Z :=
  match o with
  | Some z => if in_i64 z then Some z else None
  | None => None
  end.

(** Base-10 parsing of a 64-bit integer: an optional sign, then at least one
    ASCII digit; [None] on anything else and on overflow. *)
Definition parse_i64 (s : text) : option Z :=
  match s with
  | [] => None
  | c :: s' =>
      if (c =? 43)%N then
        match s' with [] => None | _ => check_i64 (parse_digits 0 s') end
      else if (c =? 45)%N then
        match s' with
        | [] => None
        | _ => check_i64 (option_map Z.opp (parse_digits 0 s'))
        end
      else check_i64 (parse_digits 0 s)
  end.

(** The integer a string of decimal digits denotes, by position. *)
Fixpoint decimal_value (s : text) : Z :=
  match s with
  | [] => 0
  | c :: s' => (Z.of_N c - 48) * 10 ^ Z.of_nat (length s') + decimal_value s'
  end.

(** ** Values, rows, frames *)

Inductive value :=
  | Null
  | Int (z : Z)
  | Utf8 (s : text)
  | Boolean (b : bool)
  | Datetime (us : Z).

(** A row maps column names to values; a frame is the sequence of its
    rows. *)
Abbreviation row := (gmap string value).
Abbreviation frame := (list (gmap string value)).

Inductive fault :=
  | ColumnNotFound (name : string)
  | SchemaError
  | ComputeError
  | TypeError
  | KeyError (name : string).

Inductive outcome (A : Type) :=
  | Ok (a : A)
  | Raise (e : fault).
Arguments Ok {A} a.
Arguments Raise {A} e.

#[global] Instance outcome_ret : MRet outcome := fun _ a => Ok a.
#[global] Instance outcome_bind : MBind outcome := fun _ _ f m =>
  match m with
  | Ok a => f a
  | Raise e => Raise e
  end.

Inductive time_unit := Ns | Us | Ms.

(** ** Column expressions *)

Definition Expr := row -> outcome value.

Definition col (name : string) : Expr := fun r =>
  match r !! name with
  | Some v => Ok v
  | None => Raise (ColumnNotFound name)
  end.

Definition lit_null : Expr := fun _ => Ok Null.

(** A string operation maps null to null and rejects other types. *)
Definition on_utf8 (f : text -> outcome value) (e : Expr) : Expr := fun r =>
  v ← e r;
  match v with
  | Null => Ok Null
  | Utf8 s => f s
  | _ => Raise SchemaError
  end.

(** A conversion that fails raises when [strict], yields null otherwise. *)
Definition conversion (strict : bool) (o : option value) : outcome value :=
  match o with
  | Some v => Ok v
  | None => if strict then Raise ComputeError else Ok Null
  end.

Definition str_replace (re : regex) (v : text) : Expr -> Expr :=
  on_utf8 (fun s => Ok (Utf8 (re_replace re v s))).

Definition str_contains (re : regex) : Expr -> Expr :=
  on_utf8 (fun s => Ok (Boolean (re_contains re s))).

Definition str_to_integer (strict : bool) : Expr -> Expr :=
  on_utf8 (fun s => conversion strict (Int <$> parse_i64 s)).

(** [when(c).then(t).otherwise(e)]: both branches are evaluated, the
    condition selects; a null condition selects [otherwise]. *)
Definition when_then_otherwise (c t e : Expr) : Expr := fun r =>
  vc ← c r;
  vt ← t r;
  ve ← e r;
  match vc with
  | Boolean true => Ok vt
  | Boolean false | Null => Ok ve
  | _ => Raise SchemaError
  end.

Inductive epoch_unit := EpochS | EpochMs.

(** [from_epoch]: seconds are multiplied into microseconds in 64-bit
    arithmetic; milliseconds are kept, and denote the instant
    [z * 1000] microseconds. *)
Definition from_epoch (e : Expr) (u : epoch_unit) : Expr := fun r =>
  v ← e r;
  match v with
  | Null => Ok Null
  | Int z =>
      Ok (Datetime match u with
                   | EpochS => wrap64 (z * 1000000)
                   | EpochMs => z * 1000
                   end)
  | _ => Raise SchemaError
  end.

Fixpoint first_non_null (vs : list value) : value :=
  match vs with
  | [] => Null
  | Null :: vs' => first_non_null vs'
  | v :: _ => v
  end.

Definition coalesce_row (exprs : list Expr) : Expr := fun r =>
  vs ← mapM (fun e : Expr => e r) exprs;
  Ok (first_non_null vs).

(** [pl.coalesce]: the call needs at least one expression. *)
Definition coalesce (exprs : list Expr) : outcome Expr :=
  match exprs with
  | [] => Raise TypeError
  | _ => Ok (coalesce_row exprs)
  end.

Definition is_null (e : Expr) : Expr := fun r =>
  v ← e r;
  Ok (Boolean match v with Null => true | _ => false end).

Definition is_not_null (e : Expr) : Expr := fun r =>
  v ← e r;
  Ok (Boolean match v with Null => false | _ => true end).

(** [dt.replace_time_zone]: the wall-clock reading of a zone-less column is
    declared to be in the given zone; for UTC the instant is unchanged. *)
Definition dt_replace_time_zone (tz : string) (e : Expr) : Expr := fun r =>
  v ← e r;
  match v with
  | Null => Ok Null
  | Datetime t => Ok (Datetime t)
  | _ => Raise SchemaError
  end.

(** ** Frame operations *)

Definition eval_named (r : row) (ne : string * Expr) : outcome (string * value) :=
  v ← ne.2 r; Ok (ne.1, v).

Definition add_columns (r : row) (nvs : list (string * value)) : row :=
  foldl (fun acc nv => <[nv.1 := nv.2]> acc) r nvs.

(** [df.with_columns(...)]: every expression reads the frame as it was. *)
Definition with_columns (cols : list (string * Expr)) (df : frame) : outcome frame :=
  mapM (fun r => nvs ← mapM (eval_named r) cols; Ok (add_columns r nvs)) df.

Definition drop_row (names : list string) (r : row) : outcome row :=
  match List.find (fun n => match r !! n with None => true | Some _ => false end) names with
  | Some n => Raise (ColumnNotFound n)
  | None => Ok (foldr delete r names)
  end.

Definition df_drop (names : list string) (df : frame) : outcome frame :=
  mapM (drop_row names) df.

Definition df_select (names : list string) (df : frame) : outcome frame :=
  mapM (fun r => nvs ← mapM (fun n => eval_named r (n, col n)) names;
                 Ok (list_to_map nvs : row)) df.

Fixpoint df_filter (p : Expr) (df : frame) : outcome frame :=
  match df with
  | [] => Ok []
  | r :: df' =>
      v ← p r;
      rest ← df_filter p df';
      match v with
      | Boolean true => Ok (r :: rest)
      | Boolean false | Null => Ok rest
      | _ => Raise SchemaError
      end
  end.

Definition height (df : frame) : Z := Z.of_nat (length df).

(** ** The format registry *)

Definition DATETIME_FORMATS : list text := map lit [
  "%Y-%m-%dT%H:%M:%S%.f%:z";
  "%Y-%m-%dT%H:%M:%S%:z";
  "%Y-%m-%dT%H:%M:%S%.fZ";
  "%Y-%m-%dT%H:%M:%SZ";
  "%Y-%m-%dT%H:%M:%S%.f";
  "%Y-%m-%dT%H:%M:%S";
  "%Y-%m-%dT%H:%M";
  "%Y-%m-%d %H:%M:%S%:z";
  "%Y-%m-%d %H:%M:%S%.f";
  "%Y-%m-%d %H:%M:%S";
  "%Y-%m-%d";
  "%m/%d/%Y %H:%M:%S";
  "%m/%d/%Y %I:%M:%S %p";
  "%m/%d/%Y %I:%M %p";
  "%m/%d/%Y";
  "%Y/%m/%d %H:%M:%S";
  "%Y/%m/%d";
  "%d/%m/%Y %H:%M:%S";
  "%d/%m/%Y";
  "%d-%m-%Y %H:%M:%S";
  "%d-%m-%Y";
  "%m-%d-%Y %H:%M:%S";
  "%m-%d-%Y";
  "%Y.%m.%d %H:%M:%S";
  "%Y.%m.%d";
  "%B %d, %Y %H:%M:%S";
  "%B %d, %Y";
  "%d %B %Y %H:%M:%S";
  "%d %B %Y";
  "%b %d, %Y";
  "%d %b %Y";
  "%d-%b-%Y %H:%M:%S";
  "%d-%b-%Y";
  "%Y%m%dT%H%M%SZ";
  "%Y%m%dT%H%M%S%:z";
  "%Y%m%d%H%M%S";
  "%Y%m%d";
  "%Y-%m-%d %H:%M:%S%z";
  "%Y-%m-%d %H:%M:%S %z";
  "%a, %d %b %Y %H:%M:%S%:z";
  "%a, %d %b %Y %H:%M:%S %z";
  "%Y-%m-%d %I:%M %p"
]%string.

Record ParseResult := {
  parsed_df : frame;
  unparseable : frame;
  success_count : Z;
  failure_count : Z
}.

(** One [str.to_datetime] expression, with the arguments it is built
    with. *)
Record Parser := {
  p_column : string;
  p_format : text;
  p_strict : bool;
  p_time_unit : time_unit;
  p_time_zone : option string
}.

Definition _build_datetime_parsers (column : string) (formats : option (list text))
  : list Parser :=
  let formats := match formats with None => DATETIME_FORMATS | Some fs => fs end in
  map (fun fmt => {| p_column := column; p_format := fmt; p_strict := false;
                     p_time_unit := Us; p_time_zone := Some "UTC"%string |})
      formats.

(** A frame with the two columns of the input table. *)
Definition mk_row (id : Z) (s : text) : row :=
  {[ "row_id"%string := Int id; "datetime_str"%string := Utf8 s ]}.

Definition input_frame (rows : list (Z * text)) : frame :=
  map (fun x => mk_row x.1 x.2) rows.

Definition column (name : string) (df : frame) : list (option value) :=
  map (fun r : row => r !! name) df.

(** A nullable value. *)
Definition nullable {A} (f : A -> value) (o : option A) : value :=
  match o with
  | Some a => f a
  | None => Null
  end.

(** Row-wise coalescing of nullable values. *)
Fixpoint first_some {A} (os : list (option A)) : option A :=
  match os with
  | [] => None
  | Some a :: _ => Some a
  | None :: os' => first_some os'
  end.

#[global] Instance value_eq_dec : EqDecision value.
Proof. solve_decision. Defined.


(** ** A reference runtime

  A concrete instance of the runtime's parameters, for the numeric
  directives of the pattern language: [%Y] (four digits), [%m], [%d],
  [%H], [%M], [%S] (two digits each), [%.f] (an optional fraction of up
  to nine digits, kept to the microsecond),
  [%:z] and [%z] (an offset from UTC).  A template with any other
  directive matches nothing here.  It serves to run the pipeline on
  concrete tables. *)
Module Reference.

Inductive item :=
  | Lit (c : char)
  | Year | Month | Day | Hour | Minute | Second
  | Fraction
  | Offset (colon : bool).

Fixpoint parse_format (fmt : text) : option (list item) :=
  match fmt with
  | [] => Some []
  | 37%N :: 46%N :: 102%N :: fmt' => cons Fraction <$> parse_format fmt'
  | 37%N :: 58%N :: 122%N :: fmt' => cons (Offset true) <$> parse_format fmt'
  | 37%N :: c :: fmt' =>
      match
        (if (c =? 89)%N then Some Year
         else if (c =? 109)%N then Some Month
         else if (c =? 100)%N then Some Day
         else if (c =? 72)%N then Some Hour
         else if (c =? 77)%N then Some Minute
         else if (c =? 83)%N then Some Second
         else if (c =? 122)%N then Some (Offset false)
         else None)
      with
      | Some it => cons it <$> parse_format fmt'
      | None => None
      end
  | [37%N] => None
  | c :: fmt' => cons (Lit c) <$> parse_format fmt'
  end.

Record fields := {
  f_year : option Z; f_month : option Z; f_day : option Z;
  f_hour : Z; f_minute : Z; f_second : Z;
  f_micro : Z;
  f_offset : Z  (* seconds east of UTC *)
}.

Definition no_fields : fields :=
  {| f_year := None; f_month := None; f_day := None;
     f_hour := 0; f_minute := 0; f_second := 0; f_micro := 0; f_offset := 0 |}.

(** Exactly [n] ASCII digits. *)
Fixpoint take_digits (n : nat) (acc : Z) (s : text) : option (Z * text) :=
  match n with
  | O => Some (acc, s)
  | S n' =>
      match s with
      | [] => None
      | c :: s' =>
          match digit_val c with
          | Some d => take_digits n' (acc * 10 + d) s'
          | None => None
          end
      end
  end.

(** Up to [n] ASCII digits: the digits read, scaled to [n] places, and the
    number of digits read. *)
Fixpoint take_fraction (n : nat) (acc : Z) (s : text) : Z * nat * text :=
  match n with
  | O => (acc, O, s)
  | S n' =>
      match s with
      | [] => (acc * 10 ^ Z.of_nat n, O, s)
      | c :: s' =>
          match digit_val c with
          | Some d =>
              let '(v, k, r) := take_fraction n' (acc * 10 + d) s' in (v, S k, r)
          | None => (acc * 10 ^ Z.of_nat n, O, s)
          end
      end
  end.

Definition step (it : item) (s : text) (f : fields) : option (fields * text) :=
  match it with
  | Lit c =>
      match s with
      | c' :: s' => if (c =? c')%N then Some (f, s') else None
      | [] => None
      end
  | Year =>
      '(v, r) ← take_digits 4 0 s;
      Some ({| f_year := Some v; f_month := f_month f; f_day := f_day f;
               f_hour := f_hour f; f_minute := f_minute f; f_second := f_second f;
               f_micro := f_micro f; f_offset := f_offset f |}, r)
  | Month =>
      '(v, r) ← take_digits 2 0 s;
      Some ({| f_year := f_year f; f_month := Some v; f_day := f_day f;
               f_hour := f_hour f; f_minute := f_minute f; f_second := f_second f;
               f_micro := f_micro f; f_offset := f_offset f |}, r)
  | Day =>
      '(v, r) ← take_digits 2 0 s;
      Some ({| f_year := f_year f; f_month := f_month f; f_day := Some v;
               f_hour := f_hour f; f_minute := f_minute f; f_second := f_second f;
               f_micro := f_micro f; f_offset := f_offset f |}, r)
  | Hour =>
      '(v, r) ← take_digits 2 0 s;
      Some ({| f_year := f_year f; f_month := f_month f; f_day := f_day f;
               f_hour := v; f_minute := f_minute f; f_second := f_second f;
               f_micro := f_micro f; f_offset := f_offset f |}, r)
  | Minute =>
      '(v, r) ← take_digits 2 0 s;
      Some ({| f_year := f_year f; f_month := f_month f; f_day := f_day f;
               f_hour := f_hour f; f_minute := v; f_second := f_second f;
               f_micro := f_micro f; f_offset := f_offset f |}, r)
  | Second =>
      '(v, r) ← take_digits 2 0 s;
      Some ({| f_year := f_year f; f_month := f_month f; f_day := f_day f;
               f_hour := f_hour f; f_minute := f_minute f; f_second := v;
               f_micro := f_micro f; f_offset := f_offset f |}, r)
  | Fraction =>
      match s with
      | 46%N :: s' =>
          let '(v, k, r) := take_fraction 9 0 s' in
          match k with
          | O => None
          | _ =>
              Some ({| f_year := f_year f; f_month := f_month f; f_day := f_day f;
                       f_hour := f_hour f; f_minute := f_minute f;
                       f_second := f_second f;
                       f_micro := v / 1000; f_offset := f_offset f |}, r)
          end
      | _ => Some (f, s)
      end
  | Offset colon =>
      match s with
      | sign :: s' =>
          if (sign =? 43)%N || (sign =? 45)%N then
            '(h, r) ← take_digits 2 0 s';
            r ← (if colon then
                   match r with
                   | 58%N :: r' => Some r'
                   | _ => None
                   end
                 else Some r);
            '(m, r) ← take_digits 2 0 r;
            if (h <=? 23) && (m <=? 59) then
              let secs := h * 3600 + m * 60 in
              Some ({| f_year := f_year f; f_month := f_month f; f_day := f_day f;
                       f_hour := f_hour f; f_minute := f_minute f;
                       f_second := f_second f; f_micro := f_micro f;
                       f_offset := if (sign =? 45)%N then - secs else secs |}, r)
            else None
          else None
      | [] => None
      end
  end.

(** The items in order; the whole text must be consumed. *)
Fixpoint run (items : list item) (s : text) (f : fields) : option fields :=
  match items with
  | [] => match s with [] => Some f | _ => None end
  | it :: items' =>
      match step it s f with
      | Some (f', s') => run items' s' f'
      | None => None
      end
  end.

Definition leap (y : Z) : bool :=
  (y mod 4 =? 0) && (negb (y mod 100 =? 0) || (y mod 400 =? 0)).

Definition days_in_month (y m : Z) : Z :=
  if m =? 2 then (if leap y then 29 else 28)
  else if (m =? 4) || (m =? 6) || (m =? 9) || (m =? 11) then 30
  else 31.

(** Days from 1970-01-01 to the given civil date. *)
Definition days_from_civil (y m d : Z) : Z :=
  let y' := if m <=? 2 then y - 1 else y in
  let era := y' / 400 in
  let yoe := y' - era * 400 in
  let doy := (153 * (if 2 <? m then m - 3 else m + 9) + 2) / 5 + d - 1 in
  let doe := yoe * 365 + yoe / 4 - yoe / 100 + doy in
  era * 146097 + doe - 719468.

Definition instant (f : fields) : option Z :=
  match f_year f, f_month f, f_day f with
  | Some y, Some m, Some d =>
      if (1 <=? m) && (m <=? 12) && (1 <=? d) && (d <=? days_in_month y m)
         && (f_hour f <=? 23) && (f_minute f <=? 59) && (f_second f <=? 59)
      then
        Some (((days_from_civil y m d * 86400 + f_hour f * 3600
                + f_minute f * 60 + f_second f) - f_offset f) * 1000000
              + f_micro f)
      else None
  | _, _, _ => None
  end.

Definition strptime (fmt : text) (tu : time_unit) (tz : option string)
    (s : text) : option Z :=
  items ← parse_format fmt;
  f ← run items s no_fields;
  us ← instant f;
  Some match tu with
       | Ns => us * 1000
       | Us => us
       | Ms => us / 1000
       end.

(** [\d]: the ASCII digits and, as a sample of the other decimal digits,
    the Arabic-Indic ones. *)
Definition regex_digit : char_class := fun c =>
  is_ascii_digit c || ((1632 <=? c)%N && (c <=? 1641)%N).

Definition decimal (z : Z) : text := lit (NilZero.string_of_int (Z.to_int z)).

Definition py_str (v : value) : text :=
  match v with
  | Null => lit "None"
  | Int z => decimal z
  | Utf8 s => s
  | Boolean b => if b then lit "True" else lit "False"
  | Datetime us => decimal us
  end.

(** [repr], without the escapes: enough for texts that need none. *)
Definition py_repr (v : value) : text :=
  match v with
  | Utf8 s => lit "'" ++ s ++ lit "'"
  | _ => py_str v
  end.

End Reference.

(** ** Sample inputs *)

(** A table with one row per kind of input. *)
Definition sample_table : list (Z * text) := [
  (0, lit "2024-03-15T14:30:00Z");
  (1, lit "2024-03-15 14:30:00 UTC");
  (2, lit "03/15/2024");
  (3, lit "1710513000");
  (4, lit "1710513000000");
  (5, replicate 10 1632%N);
  (6, lit "not a date");
  (7, [])
].

(** The month-first and the day-first template of the registry, which both
    accept a text such as [03/04/2024]. *)
Definition month_first : text := lit "%m/%d/%Y".
Definition day_first : text := lit "%d/%m/%Y".

(** A table of another shape: the text column is named [when], the text
    of one row is null, and there is one more column. *)
Definition event_row (id : Z) (when : value) (note : text) : row :=
  {[ "row_id"%string := Int id; "when"%string := when; "note"%string := Utf8 note ]}.

Definition events : frame :=
  [ event_row 0 (Utf8 (lit "1710513000")) (lit "first");
    event_row 1 Null (lit "second");
    event_row 2 (Utf8 (lit "2024-03-15 14:30:00")) (lit "third");
    event_row 3 (Utf8 (lit "soon")) (lit "fourth") ].

(** Two collected files, the second of which cannot be read. *)
Definition collected : list (text * (text + text)) :=
  [ (lit "docs/readme.md", inl (lit "title" ++ [10%N] ++ lit "body"));
    (lit "logo.bin", inr (lit "invalid start byte")) ].

(** ** The combiner and the extractor

    [combiner.py] writes the text files of a directory into one file, each
    after a separator line that names it; [extractor.py] cuts such a file
    back into files.  Both open their files in text mode: a read turns
    every carriage return, alone or before a line feed, into a line feed.
    The file system is not modelled: the combiner is given the files it
    collected, each with the outcome of reading it, and returns the text
    it writes; the extractor is given the stored text and returns the
    files it writes, in order. *)

(** What a read in text mode returns for a stored text. *)
Fixpoint universal_newlines (s : text) : text :=
  match s with
  | [] => []
  | c :: s' =>
      if (c =? 13)%N then
        10%N :: match s' with
                | d :: s'' =>
                    if (d =? 10)%N then universal_newlines s''
                    else universal_newlines s'
                | [] => []
                end
      else c :: universal_newlines s'
  end.

Definition ends_with_newline (s : text) : bool :=
  match last s with
  | Some 10%N => true
  | _ => false
  end.

Module Combiner.

(** The separator line of a file, as [combine_files] writes it. *)
Definition separator (rel_path : text) : text :=
  lit "===== FILE: " ++ rel_path ++ lit " =====" ++ [10%N].

(** The content [combine_files] writes for a file: what the read returns,
    with a line feed added when it is not empty and does not end in one;
    nothing when the read fails ([inr], with the message of the
    exception). *)
Definition content_written (read : text + text) : text :=
  match read with
  | inl stored =>
      let content := universal_newlines stored in
      content ++
      (if negb (bool_decide (content = [])) && negb (ends_with_newline content)
       then [10%N] else [])
  | inr _ => []
  end.

(** What [combine_files] writes for one file: its separator, written
    before the read is tried, then its content. *)
Definition block (file : text * (text + text)) : text :=
  separator file.1 ++ content_written file.2.

Definition warning (file : text * (text + text)) : list text :=
  match file.2 with
  | inl _ => []
  | inr message => [lit "Warning: Could not read " ++ file.1 ++ lit ": " ++ message]
  end.

Record combined := {
  written : text;
  warnings : list text;
  returned : Z
}.

(** [combine_files], given the files [collect_files] found: the relative
    path of each, as printed, and the outcome of reading it. *)
Definition combine_files (files : list (text * (text + text))) : combined :=
  {| written := concat (map block files);
     warnings := concat (map warning files);
     returned := Z.of_nat (length files) |}.

End Combiner.

Module Extractor.

(** The lines a text file yields when iterated: each with its line feed,
    the last one possibly without. *)
Fixpoint split_lines (s : text) : list text :=
  match s with
  | [] => []
  | c :: s' =>
      if (c =? 10)%N then [c] :: split_lines s'
      else match split_lines s' with
           | [] => [[c]]
           | line :: rest => (c :: line) :: rest
           end
  end.

(** [line.rstrip('\n')]. *)
Fixpoint rstrip_newlines (line : text) : text :=
  match line with
  | [] => []
  | c :: line' =>
      match rstrip_newlines line' with
      | [] => if (c =? 10)%N then [] else [c]
      | r => c :: r
      end
  end.

Fixpoint strip_prefix (p s : text) : option text :=
  match p, s with
  | [], _ => Some s
  | _ :: _, [] => None
  | a :: p', c :: s' => if (a =? c)%N then strip_prefix p' s' else None
  end.

Definition strip_suffix (p s : text) : option text :=
  reverse <$> strip_prefix (reverse p) (reverse s).

(** [SEPARATOR_PATTERN.match] on a line without its line feed, and the
    group it captures: the pattern is anchored at both ends; the name in
    between has at least one character and, [.] not matching a line feed,
    no line feed. *)
Definition SEPARATOR_PATTERN (line : text) : option text :=
  rest ← strip_prefix (lit "===== FILE: ") line;
  name ← strip_suffix (lit " =====") rest;
  if bool_decide (name = []) || existsb (N.eqb 10) name then None else Some name.

Section Paths.

(** [str(Path(name))]: the name as the path library prints it. *)
Variable path_str : text -> text.

Record state := {
  file_count : Z;
  current_file_path : option text;
  current_content_lines : list text;
  writes : list (text * text);
  printed : list text
}.

Definition initial : state :=
  {| file_count := 0; current_file_path := None; current_content_lines := [];
     writes := []; printed := [] |}.

Definition write_current_file (st : state) : state :=
  match current_file_path st with
  | None => st
  | Some path =>
      {| file_count := file_count st + 1;
         current_file_path := current_file_path st;
         current_content_lines := current_content_lines st;
         writes := writes st ++ [(path, concat (current_content_lines st))];
         printed := printed st ++ [lit "Extracted: " ++ path] |}
  end.

(** The body of the loop over the lines. *)
Definition step (st : state) (line : text) : state :=
  match SEPARATOR_PATTERN (rstrip_newlines line) with
  | Some name =>
      let st := write_current_file st in
      {| file_count := file_count st;
         current_file_path := Some (path_str name);
         current_content_lines := [];
         writes := writes st;
         printed := printed st |}
  | None =>
      match current_file_path st with
      | Some _ =>
          {| file_count := file_count st;
             current_file_path := current_file_path st;
             current_content_lines := current_content_lines st ++ [line];
             writes := writes st;
             printed := printed st |}
      | None => st
      end
  end.

(** [extract_files] on the stored text of the input file: the final state,
    whose [file_count] is returned and whose [writes] are the files
    written, as (path below the output directory, content). *)
Definition extract_files (stored : text) : state :=
  write_current_file (foldl step initial (split_lines (universal_newlines stored))).

End Paths.

(** A line that is not a separator. *)
Definition plain_line (line : text) : Prop :=
  SEPARATOR_PATTERN (rstrip_newlines line) = None.


End Extractor.

(** The lines of the block of a file in the combined text. *)
Definition block_lines (file : text * (text + text)) : list text :=
  Combiner.separator file.1 :: Extractor.split_lines (Combiner.content_written file.2).

(** A name the two programs can pass to each other: not empty, on one
    line, and printed by the path library as it is. *)
Definition portable_name (path_str : text -> text) (name : text) : Prop :=
  name <> [] /\ (10%N ∉ name) /\ (13%N ∉ name) /\ path_str name = name.

(** A file for which combining and extracting is a round trip: a portable
    name and no separator line in what is written as its content. *)
Definition portable_file (path_str : text -> text) (file : text * (text + text)) : Prop :=
  portable_name path_str file.1 /\
  Forall Extractor.plain_line (Extractor.split_lines (Combiner.content_written file.2)).
(** ** The pipeline *)

Section Runtime.

(** The class [\d] of the runtime's regular expressions. *)
Variable regex_digit : char_class.

(** The runtime's pattern-driven parser: [strptime fmt tu tz s] is the
    instant, in microseconds since the epoch, that the text [s] denotes
    under the template [fmt], or [None] when [s] does not fit the
    template or names no valid date and time. *)
Variable strptime : text -> time_unit -> option string -> text -> option Z.

(** Python's [str] and [repr] on the values of a row. *)
Variable py_str : value -> text.
Variable py_repr : value -> text.

Definition str_to_datetime (format : text) (strict : bool) (tu : time_unit)
    (tz : option string) : Expr -> Expr :=
  on_utf8 (fun s => conversion strict (Datetime <$> strptime format tu tz s)).

Definition parser_expr (p : Parser) : Expr :=
  str_to_datetime (p_format p) (p_strict p) (p_time_unit p) (p_time_zone p)
    (col (p_column p)).

(** The expression behind the column [_normalized_dt]. *)
Definition normalized_expr (c : string) : Expr :=
  str_replace (re_suffix "Z") (lit "+00:00")
    (str_replace (re_suffix " GMT") (lit "+00:00")
       (str_replace (re_suffix " UTC") (lit "+00:00") (col c))).

Definition parse_datetimes_multi_format (df : frame) (c : string)
    (formats : option (list text)) : outcome ParseResult :=
  let norm_col := "_normalized_dt"%string in
  df ← with_columns [(norm_col, normalized_expr c)] df;
  let parsers := _build_datetime_parsers norm_col formats in
  parsing_expr ← coalesce (map parser_expr parsers);
  result_df ← with_columns [("parsed_datetime"%string, parsing_expr)] df;
  result_df ← df_drop [norm_col] result_df;
  result_df ← with_columns
                [("datetime_utc"%string, col "parsed_datetime")] result_df;
  nulls ← df_filter (is_null (col "parsed_datetime")) result_df;
  unparseable_df ← df_select ["row_id"%string; c] nulls;
  successes ← df_filter (is_not_null (col "parsed_datetime")) result_df;
  failures ← df_filter (is_null (col "parsed_datetime")) result_df;
  Ok {| parsed_df := result_df;
        unparseable := unparseable_df;
        success_count := height successes;
        failure_count := height failures |}.

Definition parse_with_unix_timestamps (df : frame) (c : string) : outcome frame :=
  result_df ← with_columns
    [("_unix_s"%string,
      when_then_otherwise (str_contains (re_digits regex_digit 10) (col c))
        (str_to_integer false (col c)) lit_null);
     ("_unix_ms"%string,
      when_then_otherwise (str_contains (re_digits regex_digit 13) (col c))
        (str_to_integer false (col c)) lit_null)] df;
  result_df ← with_columns
    [("_from_unix_s"%string, from_epoch (col "_unix_s") EpochS);
     ("_from_unix_ms"%string, from_epoch (col "_unix_ms") EpochMs)] result_df;
  unix_expr ← coalesce [col "_from_unix_s"; col "_from_unix_ms"];
  result_df ← with_columns [("unix_parsed"%string, unix_expr)] result_df;
  df_drop ["_unix_s"; "_unix_ms"; "_from_unix_s"; "_from_unix_ms"]%string result_df.

Definition comprehensive_parse (df : frame) (c : string) : outcome ParseResult :=
  df_with_unix ← parse_with_unix_timestamps df c;
  df_with_unix ← with_columns
    [("unix_parsed"%string,
      when_then_otherwise (is_not_null (col "unix_parsed"))
        (dt_replace_time_zone "UTC" (col "unix_parsed")) lit_null)] df_with_unix;
  format_result ← parse_datetimes_multi_format df_with_unix c None;
  final_expr ← coalesce [col "parsed_datetime"; col "unix_parsed"];
  final_df ← with_columns [("datetime_utc"%string, final_expr)]
               (parsed_df format_result);
  final_df ← df_drop ["parsed_datetime"; "unix_parsed"]%string final_df;
  nulls ← df_filter (is_null (col "datetime_utc")) final_df;
  unparseable_df ← df_select ["row_id"%string; c] nulls;
  successes ← df_filter (is_not_null (col "datetime_utc")) final_df;
  failures ← df_filter (is_null (col "datetime_utc")) final_df;
  Ok {| parsed_df := final_df;
        unparseable := unparseable_df;
        success_count := height successes;
        failure_count := height failures |}.

Definition rule : text := replicate 60 61%N.

(** One line of the failure listing. *)
Definition log_row (r : row) : outcome text :=
  match r !! "datetime_str"%string with
  | None => Raise (KeyError "datetime_str")
  | Some v =>
      let v := if bool_decide (v = Utf8 []) then Utf8 (lit "<empty string>") else v in
      match r !! "row_id"%string with
      | None => Raise (KeyError "row_id")
      | Some id => Ok (lit "  Row " ++ py_str id ++ lit ": " ++ py_repr v)
      end
  end.

(** [log_unparseable]: the texts printed, one per [print] call. *)
Definition log_unparseable (result : ParseResult) : outcome (list text) :=
  if 0 <? failure_count result then
    rows ← mapM log_row (unparseable result);
    Ok ([10%N :: rule;
         lit "UNPARSEABLE DATETIME VALUES";
         rule;
         lit "Total failures: " ++ py_str (Int (failure_count result));
         10%N :: lit "Failed values:"]
        ++ rows ++ [rule])
  else Ok [].


(** ** The pipeline, row by row

    What the column expressions compute on one text. *)

(** The integer columns [_unix_s] ([n = 10]) and [_unix_ms] ([n = 13]). *)
Definition unix_int (n : nat) (s : text) : option Z :=
  if re_contains (re_digits regex_digit n) s then parse_i64 s else None.

(** The column [unix_parsed]. *)
Definition unix_parsed (s : text) : option Z :=
  first_some [ (fun z => wrap64 (z * 1000000)) <$> unix_int 10 s;
               (fun z => z * 1000) <$> unix_int 13 s ].

(** The registry in force. *)
Definition registry (formats : option (list text)) : list text :=
  match formats with
  | None => DATETIME_FORMATS
  | Some fs => fs
  end.

(** The coalesced parsers on one normalised text. *)
Definition format_match (formats : list text) (n : text) : option Z :=
  first_some (map (fun fmt => strptime fmt Us (Some "UTC"%string) n) formats).

(** The column [parsed_datetime]. *)
Definition parsed_datetime (formats : option (list text)) (s : text) : option Z :=
  format_match (registry formats) (normalize s).

(** The column [datetime_utc] of [comprehensive_parse]. *)
Definition final_datetime (s : text) : option Z :=
  first_some [parsed_datetime None s; unix_parsed s].

Definition is_none {A} (o : option A) : bool :=
  match o with None => true | Some _ => false end.

Definition is_some {A} (o : option A) : bool :=
  match o with None => false | Some _ => true end.

(** ** Definitions used to state the properties *)

(** A template accepts a normalised text with a timestamp, or rejects
    it: the parser is run in microseconds and in UTC, as
    [_build_datetime_parsers] asks. *)
Definition accepts (fmt n : text) (t : Z) : Prop :=
  strptime fmt Us (Some "UTC"%string) n = Some t.

Definition rejects (fmt n : text) : Prop :=
  strptime fmt Us (Some "UTC"%string) n = None.

(** [o] is the timestamp of the first template of [formats], in order,
    that accepts [n]; it is absent when no template accepts [n]. *)
Definition first_match_of (formats : list text) (n : text) (o : option Z) : Prop :=
  match o with
  | Some t =>
      exists pre fmt post,
        formats = pre ++ fmt :: post /\
        Forall (fun f => rejects f n) pre /\
        accepts fmt n t
  | None => Forall (fun f => rejects f n) formats
  end.

(** The epoch rule in the words of the specification: ten ASCII digits
    are seconds, thirteen are milliseconds, anything else is nothing. *)
Definition epoch_detect (s : text) : option Z :=
  if forallb is_ascii_digit s then
    if (length s =? 10)%nat then Some (decimal_value s * 1000000)
    else if (length s =? 13)%nat then Some (decimal_value s * 1000)
    else None
  else None.


(** The rows of a result that carry a timestamp. *)
Definition resolved (res : ParseResult) : frame :=
  List.filter (fun r : row =>
                 match r !! "datetime_utc"%string with
                 | Some Null | None => false
                 | Some _ => true
                 end) (parsed_df res).

(** The registry templates that end in a literal [Z]. *)
Definition Z_TEMPLATES : list text := map lit [
  "%Y-%m-%dT%H:%M:%S%.fZ";
  "%Y-%m-%dT%H:%M:%SZ";
  "%Y%m%dT%H%M%SZ"
]%string.

Definition without_Z_templates (formats : list text) : list text :=
  List.filter (fun fmt => negb (bool_decide (fmt ∈ Z_TEMPLATES))) formats.


(** The line of the failure listing for one unparseable row. *)
Definition log_line (x : Z * text) : text :=
  lit "  Row " ++ py_str (Int x.1) ++ lit ": " ++
  py_repr (Utf8 (if bool_decide (x.2 = []) then lit "<empty string>" else x.2)).

(** The reading of the specification in which the last occurrence of a
    marker is replaced, wherever it stands: [replace_last p v s] is [s]
    with its last occurrence of [p] replaced by [v], if [p] occurs. *)
Fixpoint starts_with (p s : text) : bool :=
  match p, s with
  | [], _ => true
  | _ :: _, [] => false
  | a :: p', c :: s' => (a =? c)%N && starts_with p' s'
  end.

Fixpoint replace_last (p v s : text) : option text :=
  match s with
  | [] => if starts_with p [] then Some v else None
  | c :: s' =>
      match replace_last p v s' with
      | Some r => Some (c :: r)
      | None =>
          if starts_with p s then Some (v ++ drop (length p) s) else None
      end
  end.

Definition replace_last_occurrence (p v s : text) : text :=
  match replace_last p v s with
  | Some r => r
  | None => s
  end.


(** ** Assumptions on the runtime *)

(** On ASCII, [\d] is the class of the ten digits. *)
Hypothesis regex_digit_ascii :
  forall c, (c < 128)%N -> regex_digit c = is_ascii_digit c.

(** No registry template accepts the empty text. *)
Hypothesis strptime_empty :
  forall fmt, fmt ∈ DATETIME_FORMATS -> rejects fmt [].

(** A template that ends in a literal [Z] accepts only texts that end in
    [Z]. *)
Hypothesis strptime_literal_Z :
  forall fmt n t, fmt ∈ Z_TEMPLATES -> accepts fmt n t -> last n = Some 90%N.

(** ** Tables of any shape

    The functions take the name of the text column and leave the other
    columns of a table alone.  These definitions describe the rows they
    accept and what they return on them. *)

(** The text in column [c] of a row; nothing when the value is null (or
    the column is missing or of another type). *)
Definition text_of (c : string) (r : row) : option text :=
  match r !! c with
  | Some (Utf8 s) => Some s
  | _ => None
  end.

(** Column [c] of the row holds a string or null. *)
Definition text_column (c : string) (r : row) : Prop :=
  r !! c = Some Null \/ exists s, r !! c = Some (Utf8 s).

(** The columns [parse_with_unix_timestamps] creates. *)
Definition UNIX_COLUMNS : list string :=
  ["_unix_s"; "_unix_ms"; "_from_unix_s"; "_from_unix_ms"; "unix_parsed"]%string.

(** The columns [parse_datetimes_multi_format] creates. *)
Definition FORMAT_COLUMNS : list string :=
  ["_normalized_dt"; "parsed_datetime"; "datetime_utc"]%string.

Definition lacks (names : list string) (r : row) : Prop :=
  Forall (fun n => r !! n = None) names.

(** A row of a table [comprehensive_parse] is meant for: text or null in
    column [c], a row id, and no column named like those it creates. *)
Definition input_row (c : string) (r : row) : Prop :=
  text_column c r /\ is_Some (r !! "row_id"%string) /\
  lacks UNIX_COLUMNS r /\ lacks FORMAT_COLUMNS r.

(** What [select] keeps of a row. *)
Definition select_row (names : list string) (r : row) : row :=
  list_to_map (map (fun n => (n, default Null (r !! n))) names).

(** The candidates and the final timestamp of a row. *)
Definition unix_parsed_of (c : string) (r : row) : option Z :=
  text_of c r ≫= unix_parsed.

Definition parsed_datetime_of (c : string) (formats : option (list text)) (r : row)
  : option Z :=
  text_of c r ≫= parsed_datetime formats.

Definition final_datetime_of (c : string) (r : row) : option Z :=
  text_of c r ≫= final_datetime.

(** The heading of the failure listing for [n] failures. *)
Definition log_heading (n : Z) : list text :=
  [10%N :: rule;
   lit "UNPARSEABLE DATETIME VALUES";
   rule;
   lit "Total failures: " ++ py_str (Int n);
   10%N :: lit "Failed values:"].

(** ** Facts about the regular-expression matcher *)

Lemma match_body_chr (l s r : text) :
  match_body (map chr l) s = Some r <-> s = l ++ r.
Proof.
  revert s; induction l as [|a l IH]; intros s; simpl.
  - split; [intros [= ->]; reflexivity | intros ->; reflexivity].
  - destruct s as [|c s]; [split; discriminate|].
    unfold chr at 1. destruct (N.eqb_spec a c) as [->|Hne].
    + rewrite IH. split; [intros ->; reflexivity | intros [= ->]; reflexivity].
    + split; [discriminate | intros [= -> _]; contradiction].
Qed.

Lemma match_at_suffix_hit (l : text) :
  match_at (Regex false (map chr l) true) l = Some [].
Proof.
  unfold match_at; simpl.
  assert (H : match_body (map chr l) l = Some []).
  { apply match_body_chr. rewrite app_nil_r. reflexivity. }
  rewrite H. reflexivity.
Qed.

Lemma match_at_suffix_inv (l s r : text) :
  match_at (Regex false (map chr l) true) s = Some r -> s = l /\ r = [].
Proof.
  unfold match_at; simpl.
  destruct (match_body (map chr l) s) as [[|c r']|] eqn:E; try discriminate.
  intros [= <-]. apply match_body_chr in E. rewrite app_nil_r in E. auto.
Qed.

Lemma search_unfold (re : regex) (s : text) :
  search re s =
  match match_at re s with
  | Some r => Some ([], r)
  | None =>
      match s with
      | [] => None
      | c :: s' =>
          match search re s' with
          | Some (p, r) => Some (c :: p, r)
          | None => None
          end
      end
  end.
Proof. destruct s; reflexivity. Qed.

Lemma search_suffix_hit (l p : text) :
  search (Regex false (map chr l) true) (p ++ l) = Some (p, []).
Proof.
  induction p as [|c p IH]; simpl app; rewrite search_unfold.
  - rewrite match_at_suffix_hit. reflexivity.
  - destruct (match_at _ (c :: p ++ l)) as [r|] eqn:E.
    + apply match_at_suffix_inv in E as [E _].
      apply (f_equal length) in E. simpl in E. rewrite length_app in E. lia.
    + rewrite IH. reflexivity.
Qed.

Lemma search_suffix_inv (l s p r : text) :
  search (Regex false (map chr l) true) s = Some (p, r) -> s = p ++ l /\ r = [].
Proof.
  revert p; induction s as [|c s IH]; intros p; simpl.
  - destruct (match_at _ []) as [r'|] eqn:E; [|discriminate].
    intros [= <- <-]. apply match_at_suffix_inv in E as [<- ->]. auto.
  - destruct (match_at _ (c :: s)) as [r'|] eqn:E.
    + intros [= <- <-]. apply match_at_suffix_inv in E as [<- ->]. auto.
    + destruct (search _ s) as [[p' r']|]; [|discriminate].
      intros [= <- <-]. destruct (IH p' eq_refl) as [-> ->]. auto.
Qed.

(** Replacing [l$]: a text that ends with [l] has that ending replaced,
    any other text is unchanged. *)
Lemma re_replace_suffix_hit (l : string) (v p : text) :
  re_replace (re_suffix l) v (p ++ lit l) = p ++ v.
Proof.
  unfold re_replace, find, re_suffix; simpl.
  rewrite search_suffix_hit. rewrite app_nil_r. reflexivity.
Qed.

Lemma re_replace_suffix_miss (l : string) (v s : text) :
  ~ lit l `suffix_of` s -> re_replace (re_suffix l) v s = s.
Proof.
  intros Hs. unfold re_replace, find, re_suffix; simpl.
  destruct (search _ s) as [[p r]|] eqn:E; [|reflexivity].
  apply search_suffix_inv in E as [-> _]. exfalso. apply Hs. exists p. reflexivity.
Qed.

Lemma suffix_last (l s : text) (c : char) :
  l `suffix_of` s -> last l = Some c -> last s = Some c.
Proof. intros [k ->] H. rewrite last_app, H. reflexivity. Qed.

Lemma last_offset (p : text) : last (p ++ lit "+00:00") = Some 48%N.
Proof. rewrite last_app. reflexivity. Qed.

Lemma not_suffix_by_last (l : string) (s : text) (c d : char) :
  last (lit l) = Some c -> last s = Some d -> c <> d -> ~ lit l `suffix_of` s.
Proof.
  intros Hl Hs Hne Hsuf. rewrite (suffix_last _ _ _ Hsuf Hl) in Hs. congruence.
Qed.

Lemma normalize_UTC (p : text) :
  normalize (p ++ lit " UTC") = p ++ lit "+00:00".
Proof.
  unfold normalize. rewrite re_replace_suffix_hit.
  rewrite !re_replace_suffix_miss; [reflexivity| |].
  - eapply not_suffix_by_last; [reflexivity | apply last_offset | discriminate].
  - rewrite re_replace_suffix_miss;
      eapply not_suffix_by_last; first [reflexivity | apply last_offset | discriminate].
Qed.

Lemma normalize_GMT (p : text) :
  normalize (p ++ lit " GMT") = p ++ lit "+00:00".
Proof.
  unfold normalize.
  rewrite (re_replace_suffix_miss " UTC").
  2:{ eapply not_suffix_by_last; [reflexivity | | ].
      - rewrite last_app. reflexivity.
      - discriminate. }
  rewrite re_replace_suffix_hit.
  apply re_replace_suffix_miss.
  eapply not_suffix_by_last; [reflexivity | apply last_offset | discriminate].
Qed.

Lemma normalize_Z (p : text) :
  normalize (p ++ lit "Z") = p ++ lit "+00:00".
Proof.
  unfold normalize.
  rewrite (re_replace_suffix_miss " UTC").
  2:{ eapply not_suffix_by_last; [reflexivity | | ].
      - rewrite last_app. reflexivity.
      - discriminate. }
  rewrite (re_replace_suffix_miss " GMT").
  2:{ eapply not_suffix_by_last; [reflexivity | | ].
      - rewrite last_app. reflexivity.
      - discriminate. }
  apply re_replace_suffix_hit.
Qed.

Lemma normalize_unmarked (s : text) :
  ~ lit " UTC" `suffix_of` s -> ~ lit " GMT" `suffix_of` s ->
  ~ lit "Z" `suffix_of` s -> normalize s = s.
Proof.
  intros H1 H2 H3. unfold normalize.
  rewrite (re_replace_suffix_miss " UTC") by assumption.
  rewrite (re_replace_suffix_miss " GMT") by assumption.
  apply re_replace_suffix_miss. assumption.
Qed.

(** The cases of the normaliser, on any text. *)
Lemma normalize_cases (s : text) :
  (exists p, s = p ++ lit " UTC" /\ normalize s = p ++ lit "+00:00") \/
  (exists p, s = p ++ lit " GMT" /\ normalize s = p ++ lit "+00:00") \/
  (exists p, s = p ++ lit "Z" /\ normalize s = p ++ lit "+00:00") \/
  (~ lit " UTC" `suffix_of` s /\ ~ lit " GMT" `suffix_of` s /\
   ~ lit "Z" `suffix_of` s /\ normalize s = s).
Proof.
  destruct (decide (lit " UTC" `suffix_of` s)) as [[p ->]|H1].
  { left. exists p. split; [reflexivity | apply normalize_UTC]. }
  destruct (decide (lit " GMT" `suffix_of` s)) as [[p ->]|H2].
  { right; left. exists p. split; [reflexivity | apply normalize_GMT]. }
  destruct (decide (lit "Z" `suffix_of` s)) as [[p ->]|H3].
  { right; right; left. exists p. split; [reflexivity | apply normalize_Z]. }
  right; right; right. repeat split; try assumption.
  apply normalize_unmarked; assumption.
Qed.

Lemma normalize_not_Z (s : text) : last (normalize s) <> Some 90%N.
Proof.
  destruct (normalize_cases s) as [(p & _ & ->)|[(p & _ & ->)|[(p & _ & ->)|(_ & _ & H & ->)]]];
    try (rewrite last_offset; discriminate).
  intros Hl. apply H.
  destruct s as [|c s] using rev_ind; [discriminate|].
  rewrite last_snoc in Hl. injection Hl as ->. exists s. reflexivity.
Qed.

(** ** Evaluation of expressions and frames *)

Lemma mapM_Ok_map {A B C} (h : B -> outcome C) (f : A -> B) (g : A -> C) (l : list A) :
  (forall x, h (f x) = Ok (g x)) -> mapM h (map f l) = Ok (map g l).
Proof.
  intros H. induction l as [|x l IH]; simpl; [reflexivity|].
  rewrite H. simpl. rewrite IH. reflexivity.
Qed.

Lemma col_Ok (r : row) (n : string) (v : value) :
  r !! n = Some v -> col n r = Ok v.
Proof. unfold col. intros ->. reflexivity. Qed.

Lemma str_replace_Ok (re : regex) (w : text) (e : Expr) (r : row) (s : text) :
  e r = Ok (Utf8 s) -> str_replace re w e r = Ok (Utf8 (re_replace re w s)).
Proof. unfold str_replace, on_utf8. intros ->. reflexivity. Qed.

Lemma str_contains_Ok (re : regex) (e : Expr) (r : row) (s : text) :
  e r = Ok (Utf8 s) -> str_contains re e r = Ok (Boolean (re_contains re s)).
Proof. unfold str_contains, on_utf8. intros ->. reflexivity. Qed.

Lemma str_to_integer_Ok (e : Expr) (r : row) (s : text) :
  e r = Ok (Utf8 s) -> str_to_integer false e r = Ok (nullable Int (parse_i64 s)).
Proof.
  unfold str_to_integer, on_utf8. intros ->. simpl.
  destruct (parse_i64 s); reflexivity.
Qed.

Lemma str_to_datetime_Ok (fmt : text) (tu : time_unit) (tz : option string)
    (e : Expr) (r : row) (s : text) :
  e r = Ok (Utf8 s) ->
  str_to_datetime fmt false tu tz e r = Ok (nullable Datetime (strptime fmt tu tz s)).
Proof.
  unfold str_to_datetime, on_utf8. intros ->. simpl.
  destruct (strptime fmt tu tz s); reflexivity.
Qed.

Lemma when_then_otherwise_Ok (c t e : Expr) (r : row) (b : bool) (vt ve : value) :
  c r = Ok (Boolean b) -> t r = Ok vt -> e r = Ok ve ->
  when_then_otherwise c t e r = Ok (if b then vt else ve).
Proof.
  unfold when_then_otherwise. intros -> -> ->. destruct b; reflexivity.
Qed.

Lemma from_epoch_Ok (e : Expr) (u : epoch_unit) (r : row) (o : option Z) :
  e r = Ok (nullable Int o) ->
  from_epoch e u r =
  Ok (nullable Datetime
        ((fun z => match u with
                   | EpochS => wrap64 (z * 1000000)
                   | EpochMs => z * 1000
                   end) <$> o)).
Proof. unfold from_epoch. intros ->. destruct o; reflexivity. Qed.

Lemma is_null_Ok {A} (f : A -> value) (e : Expr) (r : row) (o : option A) :
  (forall a, f a <> Null) -> e r = Ok (nullable f o) ->
  is_null e r = Ok (Boolean (is_none o)).
Proof.
  unfold is_null. intros Hf ->. destruct o as [a|]; simpl; [|reflexivity].
  specialize (Hf a). destruct (f a); try reflexivity. contradiction.
Qed.

Lemma is_not_null_Ok {A} (f : A -> value) (e : Expr) (r : row) (o : option A) :
  (forall a, f a <> Null) -> e r = Ok (nullable f o) ->
  is_not_null e r = Ok (Boolean (is_some o)).
Proof.
  unfold is_not_null. intros Hf ->. destruct o as [a|]; simpl; [|reflexivity].
  specialize (Hf a). destruct (f a); try reflexivity. contradiction.
Qed.

Lemma dt_replace_time_zone_Ok (tz : string) (e : Expr) (r : row) (o : option Z) :
  e r = Ok (nullable Datetime o) ->
  dt_replace_time_zone tz e r = Ok (nullable Datetime o).
Proof. unfold dt_replace_time_zone. intros ->. destruct o; reflexivity. Qed.

Lemma first_non_null_nullable {A} (f : A -> value) (os : list (option A)) :
  (forall a, f a <> Null) ->
  first_non_null (map (nullable f) os) = nullable f (first_some os).
Proof.
  intros Hf. induction os as [|[a|] os IH]; simpl; try reflexivity; [|exact IH].
  specialize (Hf a). destruct (f a); try reflexivity. contradiction.
Qed.

Lemma coalesce_row_Ok {A} (f : A -> value) (exprs : list Expr) (r : row)
    (os : list (option A)) :
  (forall a, f a <> Null) ->
  Forall2 (fun (e : Expr) o => e r = Ok (nullable f o)) exprs os ->
  coalesce_row exprs r = Ok (nullable f (first_some os)).
Proof.
  intros Hf H. unfold coalesce_row.
  assert (E : mapM (fun e : Expr => e r) exprs = Ok (map (nullable f) os)).
  { induction H as [|e o exprs os He _ IH]; simpl; [reflexivity|].
    rewrite He. simpl. rewrite IH. reflexivity. }
  rewrite E. simpl. rewrite first_non_null_nullable by exact Hf. reflexivity.
Qed.

Lemma with_columns_1 {A} (n : string) (e : Expr) (f : A -> row) (v : A -> value)
    (l : list A) :
  (forall x, e (f x) = Ok (v x)) ->
  with_columns [(n, e)] (map f l) = Ok (map (fun x => <[n := v x]> (f x)) l).
Proof.
  intros H. unfold with_columns. apply mapM_Ok_map. intros x.
  simpl. unfold eval_named at 1. simpl. rewrite H. reflexivity.
Qed.

Lemma with_columns_2 {A} (n1 n2 : string) (e1 e2 : Expr) (f : A -> row)
    (v1 v2 : A -> value) (l : list A) :
  (forall x, e1 (f x) = Ok (v1 x)) ->
  (forall x, e2 (f x) = Ok (v2 x)) ->
  with_columns [(n1, e1); (n2, e2)] (map f l) =
  Ok (map (fun x => <[n2 := v2 x]> (<[n1 := v1 x]> (f x))) l).
Proof.
  intros H1 H2. unfold with_columns. apply mapM_Ok_map. intros x.
  simpl. unfold eval_named. simpl. rewrite H1, H2. reflexivity.
Qed.

Lemma df_drop_Ok {A} (names : list string) (f : A -> row) (g : A -> row) (l : list A) :
  (forall x, drop_row names (f x) = Ok (g x)) ->
  df_drop names (map f l) = Ok (map g l).
Proof. intros H. unfold df_drop. apply mapM_Ok_map. exact H. Qed.

Lemma df_filter_Ok {A} (p : Expr) (f : A -> row) (b : A -> bool) (l : list A) :
  (forall x, p (f x) = Ok (Boolean (b x))) ->
  df_filter p (map f l) = Ok (map f (List.filter b l)).
Proof.
  intros H. induction l as [|x l IH]; simpl; [reflexivity|].
  rewrite H. simpl. rewrite IH. simpl. destruct (b x); reflexivity.
Qed.

Lemma df_select_2 {A} (n1 n2 : string) (f : A -> row) (v1 v2 : A -> value) (l : list A) :
  (forall x, f x !! n1 = Some (v1 x)) ->
  (forall x, f x !! n2 = Some (v2 x)) ->
  df_select [n1; n2] (map f l) =
  Ok (map (fun x => <[n1 := v1 x]> (<[n2 := v2 x]> (∅ : row))) l).
Proof.
  intros H1 H2. unfold df_select. apply mapM_Ok_map. intros x.
  simpl. unfold eval_named. simpl.
  rewrite (col_Ok _ _ _ (H1 x)), (col_Ok _ _ _ (H2 x)). reflexivity.
Qed.

(** ** The epoch path, row by row *)

Lemma Datetime_not_Null (t : Z) : Datetime t <> Null.
Proof. discriminate. Qed.

Lemma unix_int_Ok (n : nat) (r : row) (s : text) :
  r !! "datetime_str"%string = Some (Utf8 s) ->
  when_then_otherwise (str_contains (re_digits regex_digit n) (col "datetime_str"))
    (str_to_integer false (col "datetime_str")) lit_null r
  = Ok (nullable Int (unix_int n s)).
Proof.
  intros Hs.
  erewrite when_then_otherwise_Ok;
    [ | apply str_contains_Ok, col_Ok, Hs
      | apply str_to_integer_Ok, col_Ok, Hs
      | reflexivity ].
  unfold unix_int. destruct (re_contains _ s); reflexivity.
Qed.

Lemma parse_with_unix_timestamps_rows (l : list (Z * text)) :
  parse_with_unix_timestamps (input_frame l) "datetime_str" =
  Ok (map (fun x => <["unix_parsed"%string := nullable Datetime (unix_parsed x.2)]>
                      (mk_row x.1 x.2)) l).
Proof.
  unfold parse_with_unix_timestamps, input_frame.
  erewrite with_columns_2;
    [ | intros x; apply unix_int_Ok; reflexivity
      | intros x; apply unix_int_Ok; reflexivity ].
  simpl.
  erewrite with_columns_2;
    [ | intros x; apply from_epoch_Ok, col_Ok; reflexivity
      | intros x; apply from_epoch_Ok, col_Ok; reflexivity ].
  simpl.
  erewrite with_columns_1.
  2:{ intros x.
      apply (coalesce_row_Ok Datetime _ _
               [ (fun z => wrap64 (z * 1000000)) <$> unix_int 10 x.2;
                 (fun z => z * 1000) <$> unix_int 13 x.2 ]);
        [ exact Datetime_not_Null | ].
      repeat constructor; apply col_Ok; reflexivity. }
  simpl.
  apply df_drop_Ok. intros x. reflexivity.
Qed.

(** ** The format path, row by row *)

Lemma normalized_Ok (r : row) (s : text) :
  r !! "datetime_str"%string = Some (Utf8 s) ->
  normalized_expr "datetime_str" r = Ok (Utf8 (normalize s)).
Proof.
  intros Hs. unfold normalize, normalized_expr.
  repeat apply str_replace_Ok. apply col_Ok, Hs.
Qed.

Lemma coalesce_nonempty (exprs : list Expr) :
  exprs <> [] -> coalesce exprs = Ok (coalesce_row exprs).
Proof. destruct exprs; [contradiction | reflexivity]. Qed.

Lemma parsers_Ok (formats : list text) (r : row) (n : text) :
  r !! "_normalized_dt"%string = Some (Utf8 n) ->
  Forall2 (fun (e : Expr) o => e r = Ok (nullable Datetime o))
    (map parser_expr (_build_datetime_parsers "_normalized_dt" (Some formats)))
    (map (fun fmt => strptime fmt Us (Some "UTC"%string) n) formats).
Proof.
  intros Hn. unfold _build_datetime_parsers.
  induction formats as [|fmt formats IH]; simpl; constructor; [|exact IH].
  unfold parser_expr; simpl. apply str_to_datetime_Ok, col_Ok, Hn.
Qed.

Lemma build_registry (column : string) (formats : option (list text)) :
  _build_datetime_parsers column formats =
  _build_datetime_parsers column (Some (registry formats)).
Proof. destruct formats; reflexivity. Qed.

Lemma parse_datetimes_multi_format_rows {A} (f : A -> row) (txt : A -> text)
    (rid : A -> value) (formats : option (list text)) (l : list A) :
  registry formats <> [] ->
  (forall x, f x !! "datetime_str"%string = Some (Utf8 (txt x))) ->
  (forall x, f x !! "row_id"%string = Some (rid x)) ->
  (forall x, f x !! "_normalized_dt"%string = None) ->
  parse_datetimes_multi_format (map f l) "datetime_str" formats =
  Ok {| parsed_df :=
          map (fun x =>
                 <["datetime_utc"%string :=
                     nullable Datetime (parsed_datetime formats (txt x))]>
                   (<["parsed_datetime"%string :=
                        nullable Datetime (parsed_datetime formats (txt x))]> (f x))) l;
        unparseable :=
          map (fun x => <["row_id"%string := rid x]>
                          (<["datetime_str"%string := Utf8 (txt x)]> (∅ : row)))
              (List.filter (fun x => is_none (parsed_datetime formats (txt x))) l);
        success_count :=
          Z.of_nat (length (List.filter
                              (fun x => is_some (parsed_datetime formats (txt x))) l));
        failure_count :=
          Z.of_nat (length (List.filter
                              (fun x => is_none (parsed_datetime formats (txt x))) l)) |}.
Proof.
  intros Hne Hs Hid Hn. unfold parse_datetimes_multi_format.
  erewrite with_columns_1; [ | intros x; apply normalized_Ok, Hs ].
  simpl. rewrite build_registry.
  rewrite coalesce_nonempty.
  2:{ unfold _build_datetime_parsers. destruct (registry formats); [contradiction | discriminate]. }
  simpl.
  erewrite with_columns_1.
  2:{ intros x. eapply (coalesce_row_Ok Datetime); [exact Datetime_not_Null|].
      apply parsers_Ok. apply lookup_insert_eq. }
  simpl.
  erewrite (df_drop_Ok _ _
              (fun x => <["parsed_datetime"%string :=
                            nullable Datetime (parsed_datetime formats (txt x))]> (f x))).
  2:{ intros x. unfold drop_row. simpl.
      rewrite lookup_insert_ne by discriminate. rewrite lookup_insert_eq.
      rewrite delete_insert_ne by discriminate.
      rewrite delete_insert_eq. rewrite delete_id by apply Hn. reflexivity. }
  simpl.
  erewrite with_columns_1; [ | intros x; apply col_Ok, lookup_insert_eq ].
  simpl.
  erewrite df_filter_Ok.
  2:{ intros x. eapply (is_null_Ok Datetime); [exact Datetime_not_Null|].
      apply col_Ok. rewrite lookup_insert_ne by discriminate. apply lookup_insert_eq. }
  simpl.
  erewrite df_select_2.
  2:{ intros x. rewrite !lookup_insert_ne by discriminate. apply Hid. }
  2:{ intros x. rewrite !lookup_insert_ne by discriminate. apply Hs. }
  simpl.
  erewrite df_filter_Ok.
  2:{ intros x. eapply (is_not_null_Ok Datetime); [exact Datetime_not_Null|].
      apply col_Ok. rewrite lookup_insert_ne by discriminate. apply lookup_insert_eq. }
  simpl. unfold height. rewrite !length_map. reflexivity.
Qed.

(** ** The whole pipeline, row by row *)

Lemma final_expr_Ok (r : row) (a b : option Z) :
  r !! "parsed_datetime"%string = Some (nullable Datetime a) ->
  r !! "unix_parsed"%string = Some (nullable Datetime b) ->
  coalesce_row [col "parsed_datetime"; col "unix_parsed"] r =
  Ok (nullable Datetime (first_some [a; b])).
Proof.
  intros Ha Hb. apply (coalesce_row_Ok Datetime); [exact Datetime_not_Null|].
  repeat constructor; apply col_Ok; assumption.
Qed.

Lemma retag_Ok (r : row) (o : option Z) :
  r !! "unix_parsed"%string = Some (nullable Datetime o) ->
  when_then_otherwise (is_not_null (col "unix_parsed"))
    (dt_replace_time_zone "UTC" (col "unix_parsed")) lit_null r
  = Ok (nullable Datetime o).
Proof.
  intros Ho.
  erewrite when_then_otherwise_Ok;
    [ | eapply (is_not_null_Ok Datetime); [exact Datetime_not_Null | apply col_Ok, Ho]
      | apply dt_replace_time_zone_Ok, col_Ok, Ho
      | reflexivity ].
  destruct o; reflexivity.
Qed.

Lemma comprehensive_parse_rows (l : list (Z * text)) :
  comprehensive_parse (input_frame l) "datetime_str" =
  Ok {| parsed_df :=
          map (fun x => <["datetime_utc"%string :=
                            nullable Datetime (final_datetime x.2)]>
                          (mk_row x.1 x.2)) l;
        unparseable :=
          map (fun x => mk_row x.1 x.2)
              (List.filter (fun x => is_none (final_datetime x.2)) l);
        success_count :=
          Z.of_nat (length (List.filter (fun x => is_some (final_datetime x.2)) l));
        failure_count :=
          Z.of_nat (length (List.filter (fun x => is_none (final_datetime x.2)) l)) |}.
Proof.
  unfold comprehensive_parse.
  rewrite parse_with_unix_timestamps_rows. simpl.
  erewrite with_columns_1; [ | intros x; apply retag_Ok, lookup_insert_eq ].
  simpl.
  erewrite (parse_datetimes_multi_format_rows _ (fun x => x.2) (fun x => Int x.1));
    [ | discriminate | intros x; reflexivity .. ].
  simpl.
  erewrite with_columns_1.
  2:{ intros x. apply final_expr_Ok; reflexivity. }
  simpl.
  erewrite (df_drop_Ok _ _
              (fun x => <["datetime_utc"%string :=
                            nullable Datetime (final_datetime x.2)]> (mk_row x.1 x.2))).
  2:{ intros x. reflexivity. }
  simpl.
  erewrite df_filter_Ok.
  2:{ intros x. eapply (is_null_Ok Datetime); [exact Datetime_not_Null|].
      apply col_Ok. apply lookup_insert_eq. }
  simpl.
  erewrite df_select_2; [ | intros x; reflexivity .. ].
  simpl.
  erewrite df_filter_Ok.
  2:{ intros x. eapply (is_not_null_Ok Datetime); [exact Datetime_not_Null|].
      apply col_Ok. apply lookup_insert_eq. }
  simpl. unfold height. rewrite !length_map. reflexivity.
Qed.

(** ** Digits *)

Lemma re_contains_digits (d : char_class) (n : nat) (s : text) :
  re_contains (re_digits d n) s = (length s =? n)%nat && forallb d s.
Proof.
  unfold re_contains, find, re_digits, match_at; simpl.
  transitivity (match match_body (replicate n d) s with
                | Some [] => true
                | _ => false
                end).
  { destruct (match_body (replicate n d) s) as [[|c r]|]; reflexivity. }
  revert s; induction n as [|n IH]; intros [|c s]; simpl; try reflexivity.
  destruct (d c); simpl; [apply IH | symmetry; apply andb_false_r].
Qed.

Lemma digit_val_ascii (c : char) :
  is_ascii_digit c = true -> digit_val c = Some (Z.of_N c - 48).
Proof. unfold digit_val. intros ->. reflexivity. Qed.

Lemma digit_val_range (c : char) :
  is_ascii_digit c = true -> 0 <= Z.of_N c - 48 <= 9.
Proof.
  unfold is_ascii_digit. intros H. apply andb_prop in H as [H1 H2].
  apply N.leb_le in H1, H2. lia.
Qed.

Lemma decimal_value_range (s : text) :
  forallb is_ascii_digit s = true ->
  0 <= decimal_value s < 10 ^ Z.of_nat (length s).
Proof.
  induction s as [|c s IH]; simpl forallb; intros H.
  - simpl. lia.
  - apply andb_prop in H as [Hc Hs]. specialize (IH Hs).
    pose proof (digit_val_range c Hc) as Hd.
    cbn [decimal_value length]. rewrite Nat2Z.inj_succ, Z.pow_succ_r by lia.
    nia.
Qed.

Lemma parse_digits_ascii (s : text) (acc : Z) :
  forallb is_ascii_digit s = true ->
  parse_digits acc s = Some (acc * 10 ^ Z.of_nat (length s) + decimal_value s).
Proof.
  revert acc; induction s as [|c s IH]; intros acc H.
  - simpl. f_equal. lia.
  - simpl in H. apply andb_prop in H as [Hc Hs].
    cbn [parse_digits]. rewrite (digit_val_ascii c Hc), (IH _ Hs).
    cbn [decimal_value length]. rewrite Nat2Z.inj_succ, Z.pow_succ_r by lia.
    f_equal. ring.
Qed.

Lemma parse_digits_other (s : text) (acc : Z) :
  forallb is_ascii_digit s = false -> parse_digits acc s = None.
Proof.
  revert acc; induction s as [|c s IH]; intros acc H; [discriminate|].
  simpl in H. cbn [parse_digits]. unfold digit_val.
  destruct (is_ascii_digit c); simpl in H; [apply IH, H | reflexivity].
Qed.

Lemma wrap64_small (z : Z) : - 2 ^ 63 <= z < 2 ^ 63 -> wrap64 z = z.
Proof. intros H. unfold wrap64. rewrite Z.mod_small by lia. lia. Qed.

Lemma ascii_digit_regex_digit (c : char) :
  is_ascii_digit c = true -> regex_digit c = true.
Proof.
  intros H. rewrite regex_digit_ascii; [exact H|].
  unfold is_ascii_digit in H. apply andb_prop in H as [_ H].
  apply N.leb_le in H. lia.
Qed.

Lemma ascii_digits_regex_digits (s : text) :
  forallb is_ascii_digit s = true -> forallb regex_digit s = true.
Proof.
  induction s as [|c s IH]; simpl; [reflexivity|]. intros H.
  apply andb_prop in H as [Hc Hs].
  rewrite (ascii_digit_regex_digit c Hc), (IH Hs). reflexivity.
Qed.

(** On a text made of characters of the class [\d], a sign cannot come
    first, so the integer parser reads digits only. *)
Lemma parse_i64_digits (s : text) :
  s <> [] -> forallb regex_digit s = true ->
  parse_i64 s = check_i64 (parse_digits 0 s).
Proof.
  destruct s as [|c s]; [contradiction|]. intros _ H.
  simpl in H. apply andb_prop in H as [Hc _].
  unfold parse_i64.
  destruct (N.eqb_spec c 43) as [->|_].
  { rewrite regex_digit_ascii in Hc by lia. discriminate. }
  destruct (N.eqb_spec c 45) as [->|_].
  { rewrite regex_digit_ascii in Hc by lia. discriminate. }
  reflexivity.
Qed.

Lemma unix_int_spec (n : nat) (s : text) :
  (0 < n <= 18)%nat ->
  unix_int n s =
  if (length s =? n)%nat && forallb is_ascii_digit s
  then Some (decimal_value s) else None.
Proof.
  intros Hn. unfold unix_int. rewrite re_contains_digits.
  destruct (Nat.eqb_spec (length s) n) as [Hlen|]; simpl; [|reflexivity].
  destruct (forallb is_ascii_digit s) eqn:Ha.
  - rewrite (ascii_digits_regex_digits s Ha).
    rewrite parse_i64_digits;
      [ | intros ->; simpl in Hlen; lia | apply ascii_digits_regex_digits, Ha ].
    rewrite (parse_digits_ascii s 0 Ha). rewrite Z.mul_0_l, Z.add_0_l.
    unfold check_i64.
    pose proof (decimal_value_range s Ha) as Hr. rewrite Hlen in Hr.
    assert (Hp : 10 ^ Z.of_nat n <= 10 ^ 18) by (apply Z.pow_le_mono_r; lia).
    unfold in_i64.
    destruct (Z.leb_spec (- 2 ^ 63) (decimal_value s)); [|lia].
    destruct (Z.ltb_spec (decimal_value s) (2 ^ 63)); [reflexivity|lia].
  - destruct (forallb regex_digit s) eqn:Hd; [|reflexivity].
    rewrite parse_i64_digits; [ | intros ->; simpl in Hlen; lia | exact Hd ].
    rewrite (parse_digits_other s 0 Ha). reflexivity.
Qed.

Lemma unix_parsed_epoch_detect (s : text) : unix_parsed s = epoch_detect s.
Proof.
  unfold unix_parsed, epoch_detect.
  rewrite !unix_int_spec by lia.
  destruct (forallb is_ascii_digit s) eqn:Ha; rewrite ?andb_false_r, ?andb_true_r.
  2:{ reflexivity. }
  destruct (Nat.eqb_spec (length s) 10) as [H10|H10]; simpl.
  - pose proof (decimal_value_range s Ha) as Hr. rewrite H10 in Hr.
    rewrite wrap64_small; [reflexivity|].
    change (10 ^ Z.of_nat 10) with 10000000000 in Hr. lia.
  - destruct (Nat.eqb_spec (length s) 13); reflexivity.
Qed.

(** ** Coalescing *)

Lemma first_some_None {A B} (g : A -> option B) (l : list A) :
  first_some (map g l) = None <-> Forall (fun a => g a = None) l.
Proof.
  induction l as [|a l IH]; simpl.
  - split; [constructor | reflexivity].
  - destruct (g a) eqn:E.
    + split; [discriminate | intros H; inversion H; congruence].
    + rewrite IH. split; [intros H; constructor; assumption | intros H; inversion H; assumption].
Qed.

Lemma first_some_Some {A B} (g : A -> option B) (l : list A) (b : B) :
  first_some (map g l) = Some b <->
  exists pre a post,
    l = pre ++ a :: post /\ Forall (fun x => g x = None) pre /\ g a = Some b.
Proof.
  induction l as [|a l IH]; simpl.
  - split; [discriminate|]. intros (pre & x & post & H & _). destruct pre; discriminate.
  - destruct (g a) eqn:E.
    + split.
      * intros [= ->]. exists [], a, l. repeat split; [constructor | exact E].
      * intros (pre & x & post & H & Hpre & Hx).
        destruct pre as [|y pre]; simpl in H; injection H as -> ->.
        -- congruence.
        -- inversion Hpre; congruence.
    + rewrite IH. split.
      * intros (pre & x & post & -> & Hpre & Hx).
        exists (a :: pre), x, post. repeat split; [constructor; assumption | exact Hx].
      * intros (pre & x & post & H & Hpre & Hx).
        destruct pre as [|y pre]; simpl in H; injection H as -> ->.
        -- congruence.
        -- exists pre, x, post. inversion Hpre; subst. repeat split; assumption.
Qed.

Lemma format_match_spec (formats : list text) (n : text) :
  first_match_of formats n (format_match formats n).
Proof.
  unfold first_match_of, format_match.
  destruct (first_some _) as [t|] eqn:E.
  - apply first_some_Some in E. exact E.
  - apply first_some_None in E. exact E.
Qed.

Lemma first_match_of_unique (formats : list text) (n : text) (o : option Z) :
  first_match_of formats n o -> o = format_match formats n.
Proof.
  unfold first_match_of, format_match. destruct o as [t|]; intros H; symmetry.
  - apply first_some_Some. exact H.
  - apply first_some_None. exact H.
Qed.

Lemma format_match_without (keep : text -> bool) (formats : list text) (n : text) :
  (forall fmt, fmt ∈ formats -> keep fmt = false -> rejects fmt n) ->
  format_match (List.filter keep formats) n = format_match formats n.
Proof.
  unfold format_match. induction formats as [|fmt formats IH]; intros H; [reflexivity|].
  simpl. destruct (keep fmt) eqn:K; simpl.
  - destruct (strptime fmt Us _ n); [reflexivity|].
    apply IH. intros f Hf. apply H. right. exact Hf.
  - rewrite (H fmt) by (assumption || left).
    apply IH. intros f Hf. apply H. right. exact Hf.
Qed.

(** ** Columns of the results *)

Lemma Forall2_map_self {A B} (P : A -> B -> Prop) (g : A -> B) (l : list A) :
  (forall x, P x (g x)) -> Forall2 P l (map g l).
Proof. intros H. induction l; simpl; constructor; auto. Qed.


Lemma column_map {A} (name : string) (f : A -> row) (v : A -> value) (l : list A) :
  (forall x, f x !! name = Some (v x)) ->
  column name (map f l) = map Some (map v l).
Proof.
  intros H. unfold column. rewrite !map_map.
  apply map_ext. exact H.
Qed.


Lemma registry_default_nonempty : registry None <> [].
Proof. discriminate. Qed.

Lemma parse_datetimes_multi_format_input (formats : option (list text))
    (l : list (Z * text)) :
  registry formats <> [] ->
  parse_datetimes_multi_format (input_frame l) "datetime_str" formats =
  Ok {| parsed_df :=
          map (fun x =>
                 <["datetime_utc"%string :=
                     nullable Datetime (parsed_datetime formats x.2)]>
                   (<["parsed_datetime"%string :=
                        nullable Datetime (parsed_datetime formats x.2)]>
                      (mk_row x.1 x.2))) l;
        unparseable :=
          map (fun x => mk_row x.1 x.2)
              (List.filter (fun x => is_none (parsed_datetime formats x.2)) l);
        success_count :=
          Z.of_nat (length (List.filter
                              (fun x => is_some (parsed_datetime formats x.2)) l));
        failure_count :=
          Z.of_nat (length (List.filter
                              (fun x => is_none (parsed_datetime formats x.2)) l)) |}.
Proof.
  intros Hne. unfold input_frame.
  rewrite (parse_datetimes_multi_format_rows _ (fun x => x.2) (fun x => Int x.1));
    [ reflexivity | exact Hne | intros x; reflexivity .. ].
Qed.

(** ** Counting and partitioning *)

Lemma filter_lengths {A} (o : A -> option Z) (l : list A) :
  (length (List.filter (fun x => is_some (o x)) l)
   + length (List.filter (fun x => is_none (o x)) l))%nat = length l.
Proof.
  induction l as [|x l IH]; simpl; [reflexivity|].
  destruct (o x); simpl; lia.
Qed.

Lemma filter_map_comm {A B} (p : B -> bool) (f : A -> B) (l : list A) :
  List.filter p (map f l) = map f (List.filter (fun x => p (f x)) l).
Proof.
  induction l as [|x l IH]; simpl; [reflexivity|].
  destruct (p (f x)); simpl; rewrite IH; reflexivity.
Qed.

Lemma sublist_map_filter {A B} (f : A -> B) (p : A -> bool) (l : list A) :
  map f (List.filter p l) `sublist_of` map f l.
Proof.
  induction l as [|x l IH]; simpl; [constructor|].
  destruct (p x); simpl; [apply sublist_skip | apply sublist_cons]; exact IH.
Qed.

Lemma NoDup_fst_inj {A B} (l : list (A * B)) (x y : A * B) :
  List.NoDup (map fst l) -> In x l -> In y l -> x.1 = y.1 -> x = y.
Proof.
  induction l as [|z l IH]; simpl; [contradiction|].
  intros Hnd Hx Hy E. inversion Hnd as [|? ? Hz Hnd']; subst.
  destruct Hx as [->|Hx], Hy as [->|Hy].
  - reflexivity.
  - exfalso. apply Hz. rewrite E. apply in_map. exact Hy.
  - exfalso. apply Hz. rewrite <- E. apply in_map. exact Hx.
  - apply IH; assumption.
Qed.

Lemma resolved_rows (l : list (Z * text)) (res : ParseResult) :
  comprehensive_parse (input_frame l) "datetime_str" = Ok res ->
  resolved res =
  map (fun x => <["datetime_utc"%string := nullable Datetime (final_datetime x.2)]>
                  (mk_row x.1 x.2))
      (List.filter (fun x => is_some (final_datetime x.2)) l).
Proof.
  rewrite comprehensive_parse_rows. intros [= <-].
  unfold resolved. simpl. rewrite filter_map_comm. f_equal.
  apply List.filter_ext. intros x.
  rewrite lookup_insert_eq. destruct (final_datetime x.2); reflexivity.
Qed.

(** ** The empty text *)


Lemma log_row_input (x : Z * text) : log_row (mk_row x.1 x.2) = Ok (log_line x).
Proof.
  unfold log_row, log_line.
  change (mk_row x.1 x.2 !! "datetime_str"%string) with (Some (Utf8 x.2)).
  change (mk_row x.1 x.2 !! "row_id"%string) with (Some (Int x.1)).
  destruct x as [id s]; simpl. destruct s; reflexivity.
Qed.

(** ** The properties *)

(** C1 — Format Matcher.  On every table and with every registry that
    holds at least one template (the default registry included), the
    column [parsed_datetime] holds, for each row, the timestamp of the
    first template in registry order that accepts the normalised text,
    and is null when no template accepts it.  Templates further down
    the registry have no say: when [p1] comes before [p2], both accept
    the text and no template before [p1] accepts it, the row holds the
    timestamp [p1] gives, whatever [p2] gives. *)
Theorem format_matcher_first_match (formats : option (list text))
    (l : list (Z * text)) :
  registry formats <> [] ->
  exists res os,
    parse_datetimes_multi_format (input_frame l) "datetime_str" formats = Ok res /\
    column "parsed_datetime" (parsed_df res) =
      map (fun o => Some (nullable Datetime o)) os /\
    Forall2
      (fun x o =>
         first_match_of (registry formats) (normalize x.2) o /\
         forall pre p1 mid p2 post t1 t2,
           registry formats = pre ++ p1 :: mid ++ p2 :: post ->
           Forall (fun f => rejects f (normalize x.2)) pre ->
           accepts p1 (normalize x.2) t1 ->
           accepts p2 (normalize x.2) t2 ->
           o = Some t1)
      l os.
Proof.
  intros Hne.
  eexists. exists (map (fun x => parsed_datetime formats x.2) l).
  split; [apply parse_datetimes_multi_format_input, Hne|].
  split.
  - simpl. rewrite (column_map _ _
                      (fun x => nullable Datetime (parsed_datetime formats x.2)))
      by (intros x; reflexivity).
    rewrite !map_map. reflexivity.
  - apply Forall2_map_self. intros x. split.
    + apply format_match_spec.
    + intros pre p1 mid p2 post t1 t2 Hreg Hpre H1 _.
      unfold parsed_datetime. symmetry. apply first_match_of_unique.
      exists pre, p1, (mid ++ p2 :: post). auto.
Qed.


(** C3 — Epoch Detector.  For every table, the column [unix_parsed]
    holds, for each row, what the epoch rule gives on the raw text: ten
    ASCII digits give the instant whose whole seconds since the epoch
    are the integer the digits denote, with no fraction; thirteen ASCII
    digits give the instant that many milliseconds after the epoch, its
    microseconds within the second being the millisecond remainder
    times 1000; any other text gives null. *)
Theorem epoch_detector_spec (l : list (Z * text)) :
  parse_with_unix_timestamps (input_frame l) "datetime_str" =
    Ok (map (fun x => <["unix_parsed"%string := nullable Datetime (epoch_detect x.2)]>
                        (mk_row x.1 x.2)) l) /\
  (forall s, forallb is_ascii_digit s = true -> length s = 10%nat ->
     exists t, epoch_detect s = Some t /\
               t / 1000000 = decimal_value s /\ t mod 1000000 = 0) /\
  (forall s, forallb is_ascii_digit s = true -> length s = 13%nat ->
     exists t, epoch_detect s = Some t /\
               t / 1000 = decimal_value s /\
               t mod 1000000 = (decimal_value s mod 1000) * 1000) /\
  (forall s, ~ (forallb is_ascii_digit s = true /\
                (length s = 10%nat \/ length s = 13%nat)) ->
     epoch_detect s = None).
Proof.
  split; [|split; [|split]].
  - rewrite parse_with_unix_timestamps_rows. f_equal.
    apply map_ext. intros x. rewrite unix_parsed_epoch_detect. reflexivity.
  - intros s Ha Hlen. unfold epoch_detect. rewrite Ha, Hlen. simpl.
    eexists. split; [reflexivity|]. split.
    + apply Z.div_mul. lia.
    + apply Z.mod_mul. lia.
  - intros s Ha Hlen. unfold epoch_detect. rewrite Ha, Hlen. simpl.
    eexists. split; [reflexivity|]. split.
    + apply Z.div_mul. lia.
    + change 1000000 with (1000 * 1000).
      rewrite Z.mul_mod_distr_r by lia. reflexivity.
  - intros s H. unfold epoch_detect.
    destruct (forallb is_ascii_digit s); [|reflexivity].
    destruct (Nat.eqb_spec (length s) 10); [exfalso; auto|].
    destruct (Nat.eqb_spec (length s) 13); [exfalso; auto|].
    reflexivity.
Qed.

(** C4 — Counts and partition.  For every table, [comprehensive_parse]
    returns counts whose sum is the number of rows; [success_count]
    counts the rows that carry a timestamp and [failure_count] the
    unparseable rows; the unparseable rows are input rows in their
    original order; and, row ids being unique, every row id of the table
    is among the resolved rows or among the unparseable rows, never
    both. *)
Theorem counts_and_partition (l : list (Z * text)) :
  exists res,
    comprehensive_parse (input_frame l) "datetime_str" = Ok res /\
    success_count res + failure_count res = Z.of_nat (length l) /\
    success_count res = Z.of_nat (length (resolved res)) /\
    failure_count res = Z.of_nat (length (unparseable res)) /\
    unparseable res `sublist_of` input_frame l /\
    (List.NoDup (map fst l) ->
     forall id, In id (map fst l) ->
       (In (Some (Int id)) (column "row_id" (resolved res)) /\
        ~ In (Some (Int id)) (column "row_id" (unparseable res))) \/
       (~ In (Some (Int id)) (column "row_id" (resolved res)) /\
        In (Some (Int id)) (column "row_id" (unparseable res)))).
Proof.
  eexists. split; [apply comprehensive_parse_rows|].
  rewrite (resolved_rows l _ (comprehensive_parse_rows l)). simpl.
  rewrite !length_map.
  split; [rewrite <- Nat2Z.inj_add, filter_lengths; reflexivity|].
  split; [reflexivity|]. split; [reflexivity|].
  split; [apply sublist_map_filter|].
  intros Hnd id Hid.
  rewrite (column_map _ _ (fun x => Int x.1)) by (intros x; reflexivity).
  rewrite (column_map _ _ (fun x => Int x.1)) by (intros x; reflexivity).
  rewrite !map_map.
  apply in_map_iff in Hid as (x & <- & Hx).
  assert (Hother : forall p : Z * text -> bool, p x = false ->
            ~ In (Some (Int x.1)) (map (fun y => Some (Int y.1)) (List.filter p l))).
  { intros p Hp Hin. apply in_map_iff in Hin as (y & [= Ey] & Hy).
    apply filter_In in Hy as [Hy Hpy].
    rewrite (NoDup_fst_inj l y x Hnd Hy Hx Ey) in Hpy. congruence. }
  destruct (final_datetime x.2) eqn:E.
  - left. split.
    + apply in_map_iff. exists x. split; [reflexivity|].
      apply filter_In. rewrite E. auto.
    + apply Hother. rewrite E. reflexivity.
  - right. split.
    + apply Hother. rewrite E. reflexivity.
    + apply in_map_iff. exists x. split; [reflexivity|].
      apply filter_In. rewrite E. auto.
Qed.

(** C5, as the code has it — Normalizer.  The expression behind
    [_normalized_dt] never faults and computes [normalize]: a text that
    ends with [" UTC"], [" GMT"] or ["Z"] has that ending, and nothing
    else, replaced with ["+00:00"]; a text that ends with none of them is
    returned unchanged, wherever else a marker may occur in it. *)
Theorem normalizer_rewrites_trailing_marker (id : Z) (s : text) :
  normalized_expr "datetime_str" (mk_row id s) = Ok (Utf8 (normalize s)) /\
  ((exists p, s = p ++ lit " UTC" /\ normalize s = p ++ lit "+00:00") \/
   (exists p, s = p ++ lit " GMT" /\ normalize s = p ++ lit "+00:00") \/
   (exists p, s = p ++ lit "Z" /\ normalize s = p ++ lit "+00:00") \/
   (~ lit " UTC" `suffix_of` s /\ ~ lit " GMT" `suffix_of` s /\
    ~ lit "Z" `suffix_of` s /\ normalize s = s)).
Proof.
  split; [apply normalized_Ok; reflexivity | apply normalize_cases].
Qed.

(** C7 — No fault.  [comprehensive_parse] returns a result on every
    table.  Every input row has its row in the result, whose
    [datetime_utc] is a timestamp or null.  Parsing two tables one after
    the other gives the result of parsing each alone: rows, unparseable
    rows and counts add up, so no row changes what another row gets. *)
Theorem malformed_rows_never_abort (l1 l2 : list (Z * text)) :
  exists r r1 r2,
    comprehensive_parse (input_frame (l1 ++ l2)) "datetime_str" = Ok r /\
    comprehensive_parse (input_frame l1) "datetime_str" = Ok r1 /\
    comprehensive_parse (input_frame l2) "datetime_str" = Ok r2 /\
    parsed_df r = parsed_df r1 ++ parsed_df r2 /\
    unparseable r = unparseable r1 ++ unparseable r2 /\
    success_count r = success_count r1 + success_count r2 /\
    failure_count r = failure_count r1 + failure_count r2 /\
    length (parsed_df r) = length (l1 ++ l2) /\
    Forall2 (fun (x : Z * text) (out : row) =>
               out !! "row_id"%string = Some (Int x.1) /\
               out !! "datetime_str"%string = Some (Utf8 x.2) /\
               (out !! "datetime_utc"%string = Some Null \/
                exists t, out !! "datetime_utc"%string = Some (Datetime t)))
            (l1 ++ l2) (parsed_df r).
Proof.
  do 3 eexists.
  split; [apply comprehensive_parse_rows|].
  split; [apply comprehensive_parse_rows|].
  split; [apply comprehensive_parse_rows|].
  simpl. rewrite !List.filter_app, !map_app, !length_app, !length_map.
  repeat split; try reflexivity; try lia.
  rewrite <- map_app. apply Forall2_map_self. intros x.
  split; [reflexivity|]. split; [reflexivity|].
  rewrite lookup_insert_eq. destruct (final_datetime x.2) as [t|]; simpl; eauto.
Qed.



(** C10 — Templates that end in [Z].  No normalised text ends in [Z];
    so the three registry templates that end in a literal [Z] reject
    every normalised text, and the parse with the registry without them
    equals the parse with the full registry on every table. *)
Theorem Z_templates_are_redundant (l : list (Z * text)) :
  (forall s, last (normalize s) <> Some 90%N) /\
  Forall (fun fmt => fmt ∈ DATETIME_FORMATS) Z_TEMPLATES /\
  (forall s fmt, fmt ∈ Z_TEMPLATES -> rejects fmt (normalize s)) /\
  parse_datetimes_multi_format (input_frame l) "datetime_str"
    (Some (without_Z_templates DATETIME_FORMATS)) =
  parse_datetimes_multi_format (input_frame l) "datetime_str" None.
Proof.
  assert (Hrej : forall s fmt, fmt ∈ Z_TEMPLATES -> rejects fmt (normalize s)).
  { intros s fmt Hf. unfold rejects.
    destruct (strptime fmt Us _ (normalize s)) as [t|] eqn:E; [|reflexivity].
    exfalso. apply (normalize_not_Z s). exact (strptime_literal_Z fmt _ t Hf E). }
  split; [apply normalize_not_Z|].
  split; [apply (bool_decide_unpack _); vm_compute; exact I|].
  split; [exact Hrej|].
  assert (E : forall s, parsed_datetime (Some (without_Z_templates DATETIME_FORMATS)) s
                        = parsed_datetime None s).
  { intros s. unfold parsed_datetime, without_Z_templates, registry.
    apply format_match_without. intros fmt _ Hk. apply Hrej.
    apply negb_false_iff in Hk. apply bool_decide_eq_true in Hk. exact Hk. }
  rewrite !parse_datetimes_multi_format_input;
    [ | apply registry_default_nonempty | vm_compute; discriminate ].
  f_equal. f_equal.
  - apply map_ext. intros x. rewrite E. reflexivity.
  - f_equal. apply List.filter_ext. intros x. rewrite E. reflexivity.
  - do 2 f_equal. apply List.filter_ext. intros x. rewrite E. reflexivity.
  - do 2 f_equal. apply List.filter_ext. intros x. rewrite E. reflexivity.
Qed.

(** ** Tables of any shape: evaluation *)

Lemma mapM_Ok_map_in {A B C} (h : B -> outcome C) (f : A -> B) (g : A -> C)
    (l : list A) :
  (forall x, In x l -> h (f x) = Ok (g x)) -> mapM h (map f l) = Ok (map g l).
Proof.
  induction l as [|x l IH]; intros H; simpl; [reflexivity|].
  rewrite (H x) by (left; reflexivity). simpl.
  rewrite IH by (intros y Hy; apply H; right; exact Hy). reflexivity.
Qed.

Lemma with_columns_1_in {A} (n : string) (e : Expr) (f : A -> row) (v : A -> value)
    (l : list A) :
  (forall x, In x l -> e (f x) = Ok (v x)) ->
  with_columns [(n, e)] (map f l) = Ok (map (fun x => <[n := v x]> (f x)) l).
Proof.
  intros H. unfold with_columns. apply mapM_Ok_map_in. intros x Hx.
  simpl. unfold eval_named at 1. simpl. rewrite (H x Hx). reflexivity.
Qed.

Lemma with_columns_2_in {A} (n1 n2 : string) (e1 e2 : Expr) (f : A -> row)
    (v1 v2 : A -> value) (l : list A) :
  (forall x, In x l -> e1 (f x) = Ok (v1 x)) ->
  (forall x, In x l -> e2 (f x) = Ok (v2 x)) ->
  with_columns [(n1, e1); (n2, e2)] (map f l) =
  Ok (map (fun x => <[n2 := v2 x]> (<[n1 := v1 x]> (f x))) l).
Proof.
  intros H1 H2. unfold with_columns. apply mapM_Ok_map_in. intros x Hx.
  simpl. unfold eval_named. simpl. rewrite (H1 x Hx), (H2 x Hx). reflexivity.
Qed.

Lemma df_drop_Ok_in {A} (names : list string) (f : A -> row) (g : A -> row)
    (l : list A) :
  (forall x, In x l -> drop_row names (f x) = Ok (g x)) ->
  df_drop names (map f l) = Ok (map g l).
Proof. intros H. unfold df_drop. apply mapM_Ok_map_in. exact H. Qed.

Lemma df_filter_Ok_in {A} (p : Expr) (f : A -> row) (b : A -> bool) (l : list A) :
  (forall x, In x l -> p (f x) = Ok (Boolean (b x))) ->
  df_filter p (map f l) = Ok (map f (List.filter b l)).
Proof.
  induction l as [|x l IH]; intros H; simpl; [reflexivity|].
  rewrite (H x) by (left; reflexivity). simpl.
  rewrite IH by (intros y Hy; apply H; right; exact Hy). simpl.
  destruct (b x); reflexivity.
Qed.

Lemma df_select_2_in {A} (n1 n2 : string) (f : A -> row) (g : A -> row) (l : list A) :
  (forall x, In x l -> is_Some (f x !! n1) /\ is_Some (f x !! n2) /\
                       select_row [n1; n2] (f x) = g x) ->
  df_select [n1; n2] (map f l) = Ok (map g l).
Proof.
  intros H. unfold df_select. apply mapM_Ok_map_in. intros x Hx.
  destruct (H x Hx) as ([v1 E1] & [v2 E2] & <-).
  simpl. unfold eval_named. simpl.
  rewrite (col_Ok _ _ _ E1), (col_Ok _ _ _ E2). simpl.
  unfold select_row. simpl. rewrite E1, E2. reflexivity.
Qed.

Lemma text_column_col (c : string) (r : row) :
  text_column c r -> col c r = Ok (nullable Utf8 (text_of c r)).
Proof.
  unfold text_column, text_of, col. intros [H|[s H]]; rewrite H; reflexivity.
Qed.

Lemma str_replace_nullable (re : regex) (w : text) (e : Expr) (r : row)
    (o : option text) :
  e r = Ok (nullable Utf8 o) ->
  str_replace re w e r = Ok (nullable Utf8 (re_replace re w <$> o)).
Proof. unfold str_replace, on_utf8. intros ->. destruct o; reflexivity. Qed.

Lemma str_contains_nullable (re : regex) (e : Expr) (r : row) (o : option text) :
  e r = Ok (nullable Utf8 o) ->
  str_contains re e r = Ok (nullable Boolean (re_contains re <$> o)).
Proof. unfold str_contains, on_utf8. intros ->. destruct o; reflexivity. Qed.

Lemma str_to_integer_nullable (e : Expr) (r : row) (o : option text) :
  e r = Ok (nullable Utf8 o) ->
  str_to_integer false e r = Ok (nullable Int (o ≫= parse_i64)).
Proof.
  unfold str_to_integer, on_utf8. intros ->. destruct o as [s|]; simpl; [|reflexivity].
  destruct (parse_i64 s); reflexivity.
Qed.

Lemma str_to_datetime_nullable (fmt : text) (tu : time_unit) (tz : option string)
    (e : Expr) (r : row) (o : option text) :
  e r = Ok (nullable Utf8 o) ->
  str_to_datetime fmt false tu tz e r = Ok (nullable Datetime (o ≫= strptime fmt tu tz)).
Proof.
  unfold str_to_datetime, on_utf8. intros ->. destruct o as [s|]; simpl; [|reflexivity].
  destruct (strptime fmt tu tz s); reflexivity.
Qed.

Lemma unix_int_nullable (n : nat) (c : string) (r : row) :
  text_column c r ->
  when_then_otherwise (str_contains (re_digits regex_digit n) (col c))
    (str_to_integer false (col c)) lit_null r
  = Ok (nullable Int (text_of c r ≫= unix_int n)).
Proof.
  intros Hc. unfold when_then_otherwise.
  rewrite (str_contains_nullable _ _ _ _ (text_column_col c r Hc)).
  rewrite (str_to_integer_nullable _ _ _ (text_column_col c r Hc)).
  destruct (text_of c r) as [s|]; simpl; [|reflexivity].
  unfold unix_int. destruct (re_contains _ s); reflexivity.
Qed.

Ltac lookups :=
  repeat first
    [ rewrite lookup_insert_eq
    | rewrite lookup_insert_ne by congruence
    | rewrite lookup_delete_eq
    | rewrite lookup_delete_ne by congruence ].

Lemma lacks_unix (r : row) :
  lacks UNIX_COLUMNS r ->
  r !! "_unix_s"%string = None /\ r !! "_unix_ms"%string = None /\
  r !! "_from_unix_s"%string = None /\ r !! "_from_unix_ms"%string = None /\
  r !! "unix_parsed"%string = None.
Proof.
  unfold lacks, UNIX_COLUMNS. rewrite !Forall_cons. tauto.
Qed.

Lemma lacks_format (r : row) :
  lacks FORMAT_COLUMNS r ->
  r !! "_normalized_dt"%string = None /\ r !! "parsed_datetime"%string = None /\
  r !! "datetime_utc"%string = None.
Proof.
  unfold lacks, FORMAT_COLUMNS. rewrite !Forall_cons. tauto.
Qed.

Lemma text_column_ne (c n : string) (r : row) :
  text_column c r -> r !! n = None -> c <> n.
Proof. intros [H|[s H]] Hn ->; congruence. Qed.

Lemma parse_with_unix_timestamps_general (df : frame) (c : string) :
  Forall (fun r => text_column c r /\ lacks UNIX_COLUMNS r) df ->
  parse_with_unix_timestamps df c =
  Ok (map (fun r => <["unix_parsed"%string := nullable Datetime (unix_parsed_of c r)]> r)
          df).
Proof.
  intros Hdf. rewrite Forall_forall in Hdf.
  assert (H : forall r, In r df -> text_column c r /\ lacks UNIX_COLUMNS r).
  { intros r Hr. apply Hdf, list_elem_of_In, Hr. }
  clear Hdf. unfold parse_with_unix_timestamps.
  rewrite <- (map_id df) at 1.
  erewrite with_columns_2_in;
    [ | intros r Hr; apply unix_int_nullable, (H r Hr)
      | intros r Hr; apply unix_int_nullable, (H r Hr) ].
  simpl.
  erewrite with_columns_2_in;
    [ | intros r Hr; apply from_epoch_Ok, col_Ok; lookups; reflexivity
      | intros r Hr; apply from_epoch_Ok, col_Ok; lookups; reflexivity ].
  simpl.
  rewrite (with_columns_1_in _ _ _
             (fun r => nullable Datetime (unix_parsed_of c r))).
  2:{ intros r Hr.
      rewrite (coalesce_row_Ok Datetime _ _
                 [ (fun z => wrap64 (z * 1000000)) <$> (text_of c r ≫= unix_int 10);
                   (fun z => z * 1000) <$> (text_of c r ≫= unix_int 13) ]).
      - unfold unix_parsed_of. destruct (text_of c r); reflexivity.
      - exact Datetime_not_Null.
      - repeat constructor; apply col_Ok; lookups; reflexivity. }
  apply df_drop_Ok_in. intros r Hr. destruct (H r Hr) as [Hc Hl].
  apply lacks_unix in Hl as (L1 & L2 & L3 & L4 & L5).
  unfold drop_row. simpl. lookups. simpl. f_equal.
  apply map_eq. intros k.
  repeat (rewrite lookup_delete || rewrite lookup_insert).
  repeat case_decide; subst; congruence.
Qed.

Lemma normalized_nullable (c : string) (r : row) :
  text_column c r ->
  normalized_expr c r = Ok (nullable Utf8 (normalize <$> text_of c r)).
Proof.
  intros Hc. unfold normalized_expr.
  rewrite (str_replace_nullable _ _ _ _
             (re_replace (re_suffix " GMT") (lit "+00:00") <$>
                (re_replace (re_suffix " UTC") (lit "+00:00") <$> text_of c r))).
  - destruct (text_of c r); reflexivity.
  - rewrite (str_replace_nullable _ _ _ _
               (re_replace (re_suffix " UTC") (lit "+00:00") <$> text_of c r));
      [reflexivity|].
    apply str_replace_nullable, text_column_col, Hc.
Qed.

Lemma parsers_nullable (formats : list text) (r : row) (o : option text) :
  r !! "_normalized_dt"%string = Some (nullable Utf8 o) ->
  Forall2 (fun (e : Expr) t => e r = Ok (nullable Datetime t))
    (map parser_expr (_build_datetime_parsers "_normalized_dt" (Some formats)))
    (map (fun fmt => o ≫= strptime fmt Us (Some "UTC"%string)) formats).
Proof.
  intros Hn. unfold _build_datetime_parsers.
  induction formats as [|fmt formats IH]; simpl; constructor; [|exact IH].
  unfold parser_expr; simpl. apply str_to_datetime_nullable, col_Ok, Hn.
Qed.

Lemma first_some_null {A B} (l : list A) :
  first_some (map (fun _ : A => @None B) l) = None.
Proof. induction l; simpl; auto. Qed.

Lemma format_match_nullable (formats : option (list text)) (c : string) (r : row) :
  first_some (map (fun fmt => (normalize <$> text_of c r)
                                ≫= strptime fmt Us (Some "UTC"%string))
                  (registry formats))
  = parsed_datetime_of c formats r.
Proof.
  unfold parsed_datetime_of. destruct (text_of c r) as [s|]; simpl.
  - reflexivity.
  - apply first_some_null.
Qed.

Lemma parse_datetimes_multi_format_general (df : frame) (c : string)
    (formats : option (list text)) :
  registry formats <> [] ->
  Forall (fun r => text_column c r /\ is_Some (r !! "row_id"%string) /\
                   lacks FORMAT_COLUMNS r) df ->
  parse_datetimes_multi_format df c formats =
  Ok {| parsed_df :=
          map (fun r =>
                 <["datetime_utc"%string :=
                     nullable Datetime (parsed_datetime_of c formats r)]>
                   (<["parsed_datetime"%string :=
                        nullable Datetime (parsed_datetime_of c formats r)]> r)) df;
        unparseable :=
          map (select_row ["row_id"%string; c])
              (List.filter (fun r => is_none (parsed_datetime_of c formats r)) df);
        success_count :=
          Z.of_nat (length (List.filter
                              (fun r => is_some (parsed_datetime_of c formats r)) df));
        failure_count :=
          Z.of_nat (length (List.filter
                              (fun r => is_none (parsed_datetime_of c formats r)) df)) |}.
Proof.
  intros Hne Hdf. rewrite Forall_forall in Hdf.
  assert (H : forall r, In r df ->
                text_column c r /\ is_Some (r !! "row_id"%string) /\
                lacks FORMAT_COLUMNS r).
  { intros r Hr. apply Hdf, list_elem_of_In, Hr. }
  clear Hdf. unfold parse_datetimes_multi_format.
  rewrite <- (map_id df) at 1.
  erewrite with_columns_1_in; [ | intros r Hr; apply normalized_nullable, (H r Hr) ].
  simpl. rewrite build_registry.
  rewrite coalesce_nonempty.
  2:{ unfold _build_datetime_parsers. destruct (registry formats); [contradiction | discriminate]. }
  simpl.
  rewrite (with_columns_1_in _ _ _
             (fun r => nullable Datetime (parsed_datetime_of c formats r))).
  2:{ intros r Hr.
      erewrite (coalesce_row_Ok Datetime);
        [ | exact Datetime_not_Null | apply parsers_nullable, lookup_insert_eq ].
      rewrite format_match_nullable. reflexivity. }
  cbn [mbind outcome_bind].
  erewrite (df_drop_Ok_in _ _
              (fun r => <["parsed_datetime"%string :=
                            nullable Datetime (parsed_datetime_of c formats r)]> r)).
  2:{ intros r Hr. destruct (H r Hr) as (_ & _ & Hl).
      apply lacks_format in Hl as (L1 & _ & _).
      unfold drop_row. simpl. lookups. simpl.
      rewrite delete_insert_ne by discriminate.
      rewrite delete_insert_eq. rewrite delete_id by exact L1. reflexivity. }
  simpl.
  erewrite with_columns_1_in; [ | intros r Hr; apply col_Ok, lookup_insert_eq ].
  simpl.
  erewrite df_filter_Ok_in.
  2:{ intros r Hr. eapply (is_null_Ok Datetime); [exact Datetime_not_Null|].
      apply col_Ok. lookups. reflexivity. }
  simpl.
  erewrite (df_select_2_in _ _ _ (select_row ["row_id"%string; c])).
  2:{ intros r Hr. apply filter_In in Hr as [Hr _].
      destruct (H r Hr) as (Hc & Hid & Hl).
      apply lacks_format in Hl as (L1 & L2 & L3).
      pose proof (text_column_ne c _ r Hc L2) as N2.
      pose proof (text_column_ne c _ r Hc L3) as N3.
      unfold select_row. simpl. lookups.
      split; [exact Hid|]. split; [|reflexivity].
      destruct Hc as [Hc|[s Hc]]; rewrite Hc; eauto. }
  simpl.
  erewrite df_filter_Ok_in.
  2:{ intros r Hr. eapply (is_not_null_Ok Datetime); [exact Datetime_not_Null|].
      apply col_Ok. lookups. reflexivity. }
  simpl. unfold height. rewrite !length_map. reflexivity.
Qed.

Lemma text_of_insert_ne (c n : string) (v : value) (r : row) :
  c <> n -> text_of c (<[n := v]> r) = text_of c r.
Proof. intros H. unfold text_of. rewrite lookup_insert_ne by congruence. reflexivity. Qed.

Lemma final_datetime_split (c : string) (r : row) :
  first_some [parsed_datetime_of c None r; unix_parsed_of c r] = final_datetime_of c r.
Proof.
  unfold parsed_datetime_of, unix_parsed_of, final_datetime_of.
  destruct (text_of c r); reflexivity.
Qed.

Lemma comprehensive_parse_general (df : frame) (c : string) :
  Forall (input_row c) df ->
  comprehensive_parse df c =
  Ok {| parsed_df :=
          map (fun r => <["datetime_utc"%string :=
                            nullable Datetime (final_datetime_of c r)]> r) df;
        unparseable :=
          map (select_row ["row_id"%string; c])
              (List.filter (fun r => is_none (final_datetime_of c r)) df);
        success_count :=
          Z.of_nat (length (List.filter (fun r => is_some (final_datetime_of c r)) df));
        failure_count :=
          Z.of_nat (length (List.filter (fun r => is_none (final_datetime_of c r)) df)) |}.
Proof.
  intros Hdf.
  assert (H : forall r, In r df -> input_row c r).
  { intros r Hr. rewrite Forall_forall in Hdf. apply Hdf, list_elem_of_In, Hr. }
  unfold comprehensive_parse.
  rewrite parse_with_unix_timestamps_general.
  2:{ eapply Forall_impl; [exact Hdf|]. intros r (Hc & _ & Hu & _). auto. }
  cbn [mbind outcome_bind].
  erewrite with_columns_1_in; [ | intros r Hr; apply retag_Ok, lookup_insert_eq ].
  cbn [mbind outcome_bind].
  erewrite (map_ext _ (fun r => <["unix_parsed"%string :=
                                    nullable Datetime (unix_parsed_of c r)]> r))
    by (intros r; apply insert_insert_eq).
  rewrite parse_datetimes_multi_format_general;
    [ | exact registry_default_nonempty | ].
  2:{ apply Forall_forall. intros r' Hr'.
      apply list_elem_of_In, in_map_iff in Hr' as (r & <- & Hr).
      destruct (H r Hr) as (Hc & Hid & Hu & Hf).
      apply lacks_unix in Hu as (_ & _ & _ & _ & U5).
      pose proof (text_column_ne c _ r Hc U5) as N5.
      pose proof (lacks_format r Hf) as (L1 & L2 & L3).
      split; [|split].
      - destruct Hc as [Hc|[s Hc]]; [left | right; exists s]; lookups; exact Hc.
      - lookups. exact Hid.
      - unfold lacks, FORMAT_COLUMNS. repeat constructor; lookups; assumption. }
  cbn [mbind outcome_bind parsed_df coalesce].
  rewrite map_map.
  rewrite (with_columns_1_in _ _ _
             (fun r => nullable Datetime (final_datetime_of c r))).
  2:{ intros r Hr. destruct (H r Hr) as (Hc & _ & Hu & _).
      apply lacks_unix in Hu as (_ & _ & _ & _ & U5).
      pose proof (text_column_ne c _ r Hc U5) as N5.
      erewrite final_expr_Ok; [ | lookups; reflexivity | lookups; reflexivity ].
      unfold parsed_datetime_of at 1. rewrite text_of_insert_ne by exact N5.
      fold (parsed_datetime_of c None r). rewrite final_datetime_split. reflexivity. }
  cbn [mbind outcome_bind].
  erewrite (df_drop_Ok_in _ _
              (fun r => <["datetime_utc"%string :=
                            nullable Datetime (final_datetime_of c r)]> r)).
  2:{ intros r Hr. destruct (H r Hr) as (_ & _ & Hu & Hf).
      apply lacks_unix in Hu as (_ & _ & _ & _ & U5).
      apply lacks_format in Hf as (_ & L2 & _).
      unfold drop_row. simpl. lookups. simpl. f_equal.
      apply map_eq. intros k.
      repeat (rewrite lookup_delete || rewrite lookup_insert).
      repeat case_decide; subst; congruence. }
  cbn [mbind outcome_bind].
  erewrite df_filter_Ok_in.
  2:{ intros r Hr. eapply (is_null_Ok Datetime); [exact Datetime_not_Null|].
      apply col_Ok. lookups. reflexivity. }
  cbn [mbind outcome_bind].
  erewrite (df_select_2_in _ _ _ (select_row ["row_id"%string; c])).
  2:{ intros r Hr. apply filter_In in Hr as [Hr _].
      destruct (H r Hr) as (Hc & Hid & _ & Hf).
      apply lacks_format in Hf as (_ & _ & L3).
      pose proof (text_column_ne c _ r Hc L3) as N3.
      unfold select_row. simpl. lookups.
      split; [exact Hid|]. split; [|reflexivity].
      destruct Hc as [Hc|[s Hc]]; rewrite Hc; eauto. }
  cbn [mbind outcome_bind].
  erewrite df_filter_Ok_in.
  2:{ intros r Hr. eapply (is_not_null_Ok Datetime); [exact Datetime_not_Null|].
      apply col_Ok. lookups. reflexivity. }
  cbn [mbind outcome_bind]. unfold height. rewrite !length_map. reflexivity.
Qed.

Lemma Forall2_map_self_in {A B} (P : A -> B -> Prop) (g : A -> B) (l : list A) :
  (forall x, In x l -> P x (g x)) -> Forall2 P l (map g l).
Proof.
  induction l as [|x l IH]; intros H; simpl; constructor.
  - apply H. left. reflexivity.
  - apply IH. intros y Hy. apply H. right. exact Hy.
Qed.

Lemma Forall_In {A} (P : A -> Prop) (l : list A) :
  Forall P l -> forall x, In x l -> P x.
Proof. intros H x Hx. rewrite Forall_forall in H. apply H, list_elem_of_In, Hx. Qed.




(** ** Further properties *)

(** X1 — The epoch path on any table.  On a table whose column [c] holds
    text or null and that has no column named like the five the function
    creates, [parse_with_unix_timestamps] returns the rows in order, each
    with every column it had, unchanged, and one more, [unix_parsed]: the
    epoch candidate of the text, null for a null text.  The four helper
    columns are gone. *)
Theorem unix_path_keeps_table (df : frame) (c : string) :
  Forall (fun r => text_column c r /\ lacks UNIX_COLUMNS r) df ->
  exists out,
    parse_with_unix_timestamps df c = Ok out /\
    Forall2 (fun r r' : row =>
               (forall n, n <> "unix_parsed"%string -> r' !! n = r !! n) /\
               r' !! "unix_parsed"%string =
                 Some (nullable Datetime (unix_parsed_of c r)) /\
               (r !! c = Some Null -> r' !! "unix_parsed"%string = Some Null))
            df out.
Proof.
  intros Hdf. eexists. split; [apply parse_with_unix_timestamps_general, Hdf|].
  apply Forall2_map_self. intros r. split; [|split].
  - intros n Hn. apply lookup_insert_ne. congruence.
  - apply lookup_insert_eq.
  - intros Hnull. rewrite lookup_insert_eq. unfold unix_parsed_of, text_of.
    rewrite Hnull. reflexivity.
Qed.


(** X3 — Null text.  A row whose text is null gets no timestamp from
    [comprehensive_parse] and is listed among the unparseable rows. *)
Theorem null_text_is_unparseable (df : frame) (c : string) (r : row) :
  c <> "row_id"%string ->
  Forall (input_row c) df ->
  In r df ->
  r !! c = Some Null ->
  exists res,
    comprehensive_parse df c = Ok res /\
    In (<["datetime_utc"%string := Null]> r) (parsed_df res) /\
    In (select_row ["row_id"%string; c] r) (unparseable res) /\
    select_row ["row_id"%string; c] r !! c = Some Null.
Proof.
  intros Hc Hdf Hr Hnull. eexists.
  split; [apply comprehensive_parse_general, Hdf|]. simpl.
  assert (E : final_datetime_of c r = None).
  { unfold final_datetime_of, text_of. rewrite Hnull. reflexivity. }
  split; [|split].
  - apply in_map_iff. exists r. rewrite E. auto.
  - apply in_map_iff. exists r. split; [reflexivity|].
    apply filter_In. rewrite E. auto.
  - unfold select_row. simpl. rewrite lookup_insert_ne by congruence.
    rewrite lookup_insert_eq, Hnull. reflexivity.
Qed.







(** X5 — The failure listing.  After [comprehensive_parse] on a table,
    [log_unparseable] prints nothing when every row has a timestamp;
    otherwise it prints the heading with the number of failures, then one
    line per unparseable row in the order of the table, then a closing
    rule. *)
Theorem failure_listing (l : list (Z * text)) :
  exists res failing,
    comprehensive_parse (input_frame l) "datetime_str" = Ok res /\
    unparseable res = input_frame failing /\
    failing `sublist_of` l /\
    log_unparseable res =
      Ok match failing with
         | [] => []
         | _ => log_heading (Z.of_nat (length failing))
                ++ map log_line failing ++ [rule]
         end.
Proof.
  eexists. exists (List.filter (fun x => is_none (final_datetime x.2)) l).
  split; [apply comprehensive_parse_rows|].
  split; [reflexivity|].
  split.
  { pose proof (sublist_map_filter (fun x : Z * text => x)
                  (fun x => is_none (final_datetime x.2)) l) as Hs.
    rewrite !map_id in Hs. exact Hs. }
  unfold log_unparseable. cbn [failure_count unparseable].
  destruct (List.filter _ l) as [|x failing] eqn:E; [reflexivity|].
  assert (Hpos : (0 <? Z.of_nat (length (x :: failing))) = true).
  { apply Z.ltb_lt. simpl. lia. }
  rewrite Hpos.
  rewrite (mapM_Ok_map _ _ log_line) by apply log_row_input.
  reflexivity.
Qed.

(** X6 — The listing needs the default column name.  [log_unparseable]
    reads the column [datetime_str] whatever column was parsed: on the
    result of [comprehensive_parse] for a text column of another name it
    faults with [KeyError "datetime_str"] as soon as one row is
    unparseable, and prints nothing when none is. *)
Theorem failure_listing_other_column (df : frame) (c : string) :
  c <> "row_id"%string ->
  c <> "datetime_str"%string ->
  Forall (input_row c) df ->
  exists res,
    comprehensive_parse df c = Ok res /\
    (unparseable res <> [] ->
     log_unparseable res = Raise (KeyError "datetime_str")) /\
    (unparseable res = [] -> log_unparseable res = Ok []).
Proof.
  intros Hid Hc Hdf. eexists.
  split; [apply comprehensive_parse_general, Hdf|].
  unfold log_unparseable. cbn [failure_count unparseable].
  destruct (List.filter _ df) as [|r failing]; simpl map.
  - split; [contradiction | reflexivity].
  - split; [|discriminate]. intros _.
    assert (Hpos : (0 <? Z.of_nat (length (r :: failing))) = true).
    { apply Z.ltb_lt. simpl. lia. }
    rewrite Hpos.
    assert (E : log_row (select_row ["row_id"%string; c] r)
                = Raise (KeyError "datetime_str")).
    { unfold log_row, select_row. simpl.
      rewrite lookup_insert_ne by congruence.
      rewrite lookup_insert_ne by congruence. reflexivity. }
    simpl. rewrite E. reflexivity.
Qed.

(** X7 — The format path on any table.  On a table whose column [c] holds
    text or null, with a row id and no column named like the three the
    function creates, [parse_datetimes_multi_format] (with any registry
    of at least one template) returns the rows in order with their
    columns unchanged and two more, [parsed_datetime] and [datetime_utc],
    which hold the same value; the helper column [_normalized_dt] is not
    in the result; the unparseable rows are the rows without a match and
    the counts add up to the height of the table. *)
Theorem format_path_keeps_table (df : frame) (c : string)
    (formats : option (list text)) :
  registry formats <> [] ->
  c <> "row_id"%string ->
  Forall (fun r => text_column c r /\ is_Some (r !! "row_id"%string) /\
                   lacks FORMAT_COLUMNS r) df ->
  exists res,
    parse_datetimes_multi_format df c formats = Ok res /\
    Forall2 (fun r r' : row =>
               (forall n, n <> "parsed_datetime"%string -> n <> "datetime_utc"%string ->
                          r' !! n = r !! n) /\
               r' !! "parsed_datetime"%string =
                 Some (nullable Datetime (parsed_datetime_of c formats r)) /\
               r' !! "datetime_utc"%string = r' !! "parsed_datetime"%string /\
               r' !! "_normalized_dt"%string = None)
            df (parsed_df res) /\
    unparseable res =
      map (select_row ["row_id"%string; c])
          (List.filter (fun r => is_none (parsed_datetime_of c formats r)) df) /\
    success_count res + failure_count res = height df.
Proof.
  intros Hne _ Hdf. eexists.
  split; [apply parse_datetimes_multi_format_general; assumption|].
  simpl. split; [|split; [reflexivity|]].
  - apply Forall2_map_self_in. intros r Hr.
    destruct (Forall_In _ _ Hdf r Hr) as (_ & _ & Hl).
    apply lacks_format in Hl as (L1 & _ & _).
    split; [|split; [|split]].
    + intros n N1 N2. lookups. reflexivity.
    + lookups. reflexivity.
    + lookups. reflexivity.
    + lookups. exact L1.
  - unfold height. rewrite <- Nat2Z.inj_add.
    rewrite (filter_lengths (parsed_datetime_of c formats)). reflexivity.
Qed.

(** X8 — Normalising twice.  The normaliser changes nothing in a text it
    has already normalised. *)
Theorem normalize_idempotent (s : text) : normalize (normalize s) = normalize s.
Proof.
  destruct (normalize_cases s)
    as [(p & _ & ->)|[(p & _ & ->)|[(p & _ & ->)|(H1 & H2 & H3 & ->)]]].
  4:{ apply normalize_unmarked; assumption. }
  all: apply normalize_unmarked;
    eapply not_suffix_by_last; first [reflexivity | apply last_offset | discriminate].
Qed.

(** X9 — No overflow on the epoch path.  Whenever the column [_unix_s] or
    [_unix_ms] holds an integer, it is the value of ten, respectively
    thirteen, ASCII digits, so it is not negative and the multiplication
    into microseconds stays within 64 bits: it never wraps around. *)
Theorem epoch_conversion_never_wraps (s : text) (z : Z) :
  (unix_int 10 s = Some z ->
   0 <= z < 10 ^ 10 /\ z = decimal_value s /\ wrap64 (z * 1000000) = z * 1000000) /\
  (unix_int 13 s = Some z ->
   0 <= z < 10 ^ 13 /\ z = decimal_value s /\ in_i64 (z * 1000) = true).
Proof.
  split; intros H; rewrite unix_int_spec in H by lia.
  - destruct (Nat.eqb_spec (length s) 10) as [Hlen|]; [|discriminate].
    destruct (forallb is_ascii_digit s) eqn:Ha; [|discriminate].
    injection H as <-. pose proof (decimal_value_range s Ha) as Hr.
    rewrite Hlen in Hr. change (Z.of_nat 10) with 10 in Hr.
    split; [exact Hr|]. split; [reflexivity|].
    apply wrap64_small. change (10 ^ 10) with 10000000000 in Hr. lia.
  - destruct (Nat.eqb_spec (length s) 13) as [Hlen|]; [|discriminate].
    destruct (forallb is_ascii_digit s) eqn:Ha; [|discriminate].
    injection H as <-. pose proof (decimal_value_range s Ha) as Hr.
    rewrite Hlen in Hr. change (Z.of_nat 13) with 13 in Hr.
    split; [exact Hr|]. split; [reflexivity|].
    change (10 ^ 13) with 10000000000000 in Hr.
    unfold in_i64. apply andb_true_intro.
    split; [apply Z.leb_le | apply Z.ltb_lt]; lia.
Qed.


End Runtime.

(** ** The reference runtime meets the assumptions *)

Lemma reference_regex_digit_ascii (c : char) :
  (c < 128)%N -> Reference.regex_digit c = is_ascii_digit c.
Proof.
  intros H. unfold Reference.regex_digit.
  destruct (N.leb_spec 1632 c); [lia|]. simpl. apply orb_false_r.
Qed.


Lemma take_digits_suffix (n : nat) (acc : Z) (s : text) (v : Z) (r : text) :
  Reference.take_digits n acc s = Some (v, r) -> r `suffix_of` s.
Proof.
  revert acc s; induction n as [|n IH]; intros acc s; simpl.
  - intros [= _ ->]. reflexivity.
  - destruct s as [|c s]; [discriminate|].
    destruct (digit_val c); [|discriminate].
    intros H. apply suffix_cons_r. exact (IH _ _ H).
Qed.

Lemma take_fraction_suffix (n : nat) (acc : Z) (s : text) :
  (Reference.take_fraction n acc s).2 `suffix_of` s.
Proof.
  revert acc s; induction n as [|n IH]; intros acc s; simpl; [reflexivity|].
  destruct s as [|c s]; [reflexivity|].
  destruct (digit_val c); [|reflexivity].
  specialize (IH (acc * 10 + z) s).
  destruct (Reference.take_fraction n (acc * 10 + z) s) as [[v k] r].
  simpl in *. apply suffix_cons_r. exact IH.
Qed.

Lemma step_suffix (it : Reference.item) (s : text) (f f' : Reference.fields) (s' : text) :
  Reference.step it s f = Some (f', s') -> s' `suffix_of` s.
Proof.
  destruct it; unfold Reference.step.
  - destruct s as [|c' s0]; [discriminate|].
    destruct (c =? c')%N; [|discriminate].
    intros [= _ ->]. apply suffix_cons_r. reflexivity.
  - destruct (Reference.take_digits 4 0 s) as [[v r]|] eqn:E; simpl; [|discriminate].
    intros [= _ <-]. exact (take_digits_suffix _ _ _ _ _ E).
  - destruct (Reference.take_digits 2 0 s) as [[v r]|] eqn:E; simpl; [|discriminate].
    intros [= _ <-]. exact (take_digits_suffix _ _ _ _ _ E).
  - destruct (Reference.take_digits 2 0 s) as [[v r]|] eqn:E; simpl; [|discriminate].
    intros [= _ <-]. exact (take_digits_suffix _ _ _ _ _ E).
  - destruct (Reference.take_digits 2 0 s) as [[v r]|] eqn:E; simpl; [|discriminate].
    intros [= _ <-]. exact (take_digits_suffix _ _ _ _ _ E).
  - destruct (Reference.take_digits 2 0 s) as [[v r]|] eqn:E; simpl; [|discriminate].
    intros [= _ <-]. exact (take_digits_suffix _ _ _ _ _ E).
  - destruct (Reference.take_digits 2 0 s) as [[v r]|] eqn:E; simpl; [|discriminate].
    intros [= _ <-]. exact (take_digits_suffix _ _ _ _ _ E).
  - destruct s as [|c s0]; [intros [= _ <-]; reflexivity|].
    destruct (N.eqb_spec c 46) as [->|Hc]; cbv beta iota.
    + pose proof (take_fraction_suffix 9 0 s0) as Hs.
      destruct (Reference.take_fraction 9 0 s0) as [[v k] r].
      destruct k; [discriminate|]. intros [= _ <-].
      apply suffix_cons_r. exact Hs.
    + assert (E : forall X Y : option (Reference.fields * text),
                match c with 46%N => X | _ => Y end = Y).
      { intros X Y. destruct c as [|p]; [reflexivity|].
        do 6 (destruct p as [p|p|]; try reflexivity). contradiction. }
      rewrite E. intros [= _ <-]. reflexivity.
  - destruct s as [|sign s0]; [discriminate|].
    destruct ((sign =? 43)%N || (sign =? 45)%N); [|discriminate].
    destruct (Reference.take_digits 2 0 s0) as [[h r]|] eqn:E1;
      cbn -[Reference.take_digits]; [|discriminate].
    assert (Hr : forall r1,
               (if colon then match r with 58%N :: r' => Some r' | _ => None end
                else Some r) = Some r1 -> r1 `suffix_of` r).
    { intros r1. destruct colon.
      - destruct r as [|c r']; [discriminate|].
        destruct (N.eqb_spec c 58) as [->|Hc].
        + intros [= ->]. apply suffix_cons_r. reflexivity.
        + destruct c as [|p]; [discriminate|].
          do 6 (destruct p as [p|p|]; try discriminate). contradiction.
      - intros [= ->]. reflexivity. }
    destruct (if colon then _ else _) as [r1|];
      cbn -[Reference.take_digits]; [|discriminate].
    specialize (Hr r1 eq_refl).
    destruct (Reference.take_digits 2 0 r1) as [[m r2]|] eqn:E2;
      cbn -[Reference.take_digits]; [|discriminate].
    destruct ((h <=? 23) && (m <=? 59)); [|discriminate].
    intros [= _ <-].
    apply suffix_cons_r.
    etransitivity; [exact (take_digits_suffix _ _ _ _ _ E2)|].
    etransitivity; [exact Hr|]. exact (take_digits_suffix _ _ _ _ _ E1).
Qed.

(** A template whose last item is a literal accepts only texts that end
    with it. *)
Lemma run_ends_with_literal (items : list Reference.item) (c : char) (s : text)
    (f f' : Reference.fields) :
  Reference.run (items ++ [Reference.Lit c]) s f = Some f' -> last s = Some c.
Proof.
  revert s f; induction items as [|it items IH]; intros s f; simpl.
  - destruct s as [|c' s]; [discriminate|].
    destruct (N.eqb_spec c c') as [<-|]; [|discriminate].
    destruct s; [reflexivity | discriminate].
  - destruct (Reference.step it s f) as [[f1 s1]|] eqn:E; [|discriminate].
    intros H. apply step_suffix in E.
    exact (suffix_last _ _ _ E (IH _ _ H)).
Qed.

Lemma reference_strptime_literal_Z (fmt n : text) (t : Z) :
  fmt ∈ Z_TEMPLATES -> accepts Reference.strptime fmt n t -> last n = Some 90%N.
Proof.
  intros Hf. unfold accepts, Reference.strptime.
  assert (Hitems : exists items,
             Reference.parse_format fmt = Some (items ++ [Reference.Lit 90%N])).
  { unfold Z_TEMPLATES in Hf. simpl in Hf.
    repeat (apply elem_of_cons in Hf as [->|Hf]);
      [ | | | apply elem_of_nil in Hf; contradiction ].
    - eexists [_;_;_;_;_;_;_;_;_;_;_;_]. vm_compute. reflexivity.
    - eexists [_;_;_;_;_;_;_;_;_;_;_]. vm_compute. reflexivity.
    - eexists [_;_;_;_;_;_;_]. vm_compute. reflexivity. }
  destruct Hitems as [items ->]. simpl.
  destruct (Reference.run _ n Reference.no_fields) as [f|] eqn:E; [|discriminate].
  intros _. exact (run_ends_with_literal _ _ _ _ _ E).
Qed.

(** ** The pipeline on concrete tables *)

Example sample_table_parsed :
  exists res,
    comprehensive_parse Reference.regex_digit Reference.strptime
      (input_frame sample_table) "datetime_str" = Ok res /\
    column "datetime_utc" (parsed_df res) =
      [Some (Datetime 1710513000000000); Some (Datetime 1710513000000000);
       Some (Datetime 1710460800000000); Some (Datetime 1710513000000000);
       Some (Datetime 1710513000000000); Some Null; Some Null; Some Null] /\
    column "row_id" (unparseable res) = [Some (Int 5); Some (Int 6); Some (Int 7)] /\
    success_count res = 5 /\ failure_count res = 3.
Proof.
  eexists. split; [apply comprehensive_parse_rows|].
  vm_compute. repeat split; reflexivity.
Qed.

Example registry_order_decides :
  format_match Reference.strptime [month_first; day_first] (lit "03/04/2024")
    = Some 1709510400000000 /\
  format_match Reference.strptime [day_first; month_first] (lit "03/04/2024")
    = Some 1712102400000000.
Proof. vm_compute. split; reflexivity. Qed.

(** With [strict] set, one malformed row would abort the column. *)
Example strict_conversion_raises :
  str_to_integer true (col "datetime_str") (mk_row 0 (lit "N/A")) = Raise ComputeError /\
  str_to_integer false (col "datetime_str") (mk_row 0 (lit "N/A")) = Ok Null.
Proof. split; reflexivity. Qed.

(** ** Instances of the properties on the reference runtime *)

Lemma format_matcher_first_match_witness :
  registry (Some [month_first; day_first]) <> [] /\
  exists res os,
    parse_datetimes_multi_format Reference.strptime
      (input_frame [(0, lit "03/04/2024"); (1, lit "25/12/2024")]) "datetime_str"
      (Some [month_first; day_first]) = Ok res /\
    column "parsed_datetime" (parsed_df res) =
      map (fun o => Some (nullable Datetime o)) os /\
    Forall2 (fun x o =>
               first_match_of Reference.strptime [month_first; day_first]
                 (normalize x.2) o)
            [(0, lit "03/04/2024"); (1, lit "25/12/2024")] os.
Proof.
  split; [discriminate|].
  destruct (format_matcher_first_match Reference.strptime
              (Some [month_first; day_first])
              [(0, lit "03/04/2024"); (1, lit "25/12/2024")])
    as (res & os & Hres & Hcol & Hall); [discriminate|].
  exists res, os. split; [exact Hres|]. split; [exact Hcol|].
  eapply Forall2_impl; [exact Hall|]. intros x o [H _]. exact H.
Defined.

Lemma epoch_detector_spec_witness :
  (forall c, (c < 128)%N -> Reference.regex_digit c = is_ascii_digit c) /\
  parse_with_unix_timestamps Reference.regex_digit (input_frame sample_table)
    "datetime_str" =
  Ok (map (fun x => <["unix_parsed"%string := nullable Datetime (epoch_detect x.2)]>
                      (mk_row x.1 x.2)) sample_table).
Proof.
  split; [exact reference_regex_digit_ascii|].
  exact (proj1 (epoch_detector_spec Reference.regex_digit
                  reference_regex_digit_ascii sample_table)).
Defined.

Lemma counts_and_partition_witness :
  List.NoDup (map fst sample_table) /\
  exists res,
    comprehensive_parse Reference.regex_digit Reference.strptime
      (input_frame sample_table) "datetime_str" = Ok res /\
    success_count res + failure_count res = 8 /\
    forall id, In id (map fst sample_table) ->
      (In (Some (Int id)) (column "row_id" (resolved res)) /\
       ~ In (Some (Int id)) (column "row_id" (unparseable res))) \/
      (~ In (Some (Int id)) (column "row_id" (resolved res)) /\
       In (Some (Int id)) (column "row_id" (unparseable res))).
Proof.
  assert (Hnd : List.NoDup (map fst sample_table)).
  { apply NoDup_ListNoDup. apply (bool_decide_unpack _). vm_compute. exact I. }
  split; [exact Hnd|].
  destruct (counts_and_partition Reference.regex_digit Reference.strptime sample_table)
    as (res & Hres & Hsum & _ & _ & _ & Hpart).
  exists res. split; [exact Hres|]. split; [exact Hsum|]. exact (Hpart Hnd).
Defined.


Lemma Z_templates_are_redundant_witness :
  (forall fmt n t, fmt ∈ Z_TEMPLATES -> accepts Reference.strptime fmt n t ->
                   last n = Some 90%N) /\
  parse_datetimes_multi_format Reference.strptime (input_frame sample_table)
    "datetime_str" (Some (without_Z_templates DATETIME_FORMATS)) =
  parse_datetimes_multi_format Reference.strptime (input_frame sample_table)
    "datetime_str" None.
Proof.
  split; [exact reference_strptime_literal_Z|].
  exact (proj2 (proj2 (proj2 (Z_templates_are_redundant Reference.strptime
                                reference_strptime_literal_Z sample_table)))).
Defined.

(** ** Where the specification and the code part *)

(** C5 as stated fails: a marker in the middle of a text is its last
    occurrence, and the code leaves it in place. *)
Lemma normalizer_last_occurrence_counterexample :
  replace_last_occurrence (lit " UTC") (lit "+00:00") (lit "2024-03-15 UTC 14:30")
    = lit "2024-03-15+00:00 14:30" /\
  normalize (lit "2024-03-15 UTC 14:30") = lit "2024-03-15 UTC 14:30" /\
  normalize (lit "2024-03-15 UTC 14:30") <>
    replace_last_occurrence (lit " UTC") (lit "+00:00") (lit "2024-03-15 UTC 14:30").
Proof. vm_compute. repeat split; [reflexivity .. | discriminate]. Qed.


(** ** The combiner and the extractor: facts *)

Lemma universal_newlines_length_ind (P : text -> Prop) :
  (forall s, (forall s', (length s' < length s)%nat -> P s') -> P s) -> forall s, P s.
Proof.
  intros H s. remember (length s) as n eqn:E. revert s E.
  induction n as [n IH] using lt_wf_ind. intros s ->.
  apply H. intros s' Hlt. exact (IH _ Hlt s' eq_refl).
Qed.

Lemma universal_newlines_no_cr (s : text) : 13%N ∉ universal_newlines s.
Proof.
  induction s as [s IH] using universal_newlines_length_ind.
  destruct s as [|c s]; [apply not_elem_of_nil|].
  cbn [universal_newlines].
  destruct (N.eqb_spec c 13) as [->|Hc].
  - apply not_elem_of_cons. split; [discriminate|].
    destruct s as [|d s]; [apply not_elem_of_nil|].
    destruct (d =? 10)%N; apply IH; simpl; lia.
  - apply not_elem_of_cons. split; [congruence|].
    apply IH. simpl. lia.
Qed.

Lemma universal_newlines_id (s : text) : 13%N ∉ s -> universal_newlines s = s.
Proof.
  induction s as [|c s IH]; intros H; [reflexivity|].
  apply not_elem_of_cons in H as [Hc Hs].
  cbn [universal_newlines].
  destruct (N.eqb_spec c 13) as [->|_]; [contradiction|].
  rewrite (IH Hs). reflexivity.
Qed.

Lemma split_lines_concat (s : text) : concat (Extractor.split_lines s) = s.
Proof.
  induction s as [|c s IH]; simpl; [reflexivity|].
  destruct (c =? 10)%N; simpl; [rewrite IH; reflexivity|].
  destruct (Extractor.split_lines s) as [|line rest]; simpl in *.
  - rewrite <- IH. reflexivity.
  - rewrite <- IH. reflexivity.
Qed.

(** A line, then the rest. *)
Lemma split_lines_line (l rest : text) :
  10%N ∉ l ->
  Extractor.split_lines (l ++ 10%N :: rest) = (l ++ [10%N]) :: Extractor.split_lines rest.
Proof.
  induction l as [|c l IH]; intros H; simpl; [reflexivity|].
  apply not_elem_of_cons in H as [Hc Hl].
  destruct (N.eqb_spec c 10) as [->|_]; [contradiction|].
  rewrite (IH Hl). reflexivity.
Qed.

Lemma split_lines_app (a b : text) :
  a = [] \/ last a = Some 10%N ->
  Extractor.split_lines (a ++ b) = Extractor.split_lines a ++ Extractor.split_lines b.
Proof.
  induction a as [|c a IH]; intros H; [reflexivity|].
  destruct H as [H|H]; [discriminate|].
  simpl. destruct (N.eqb_spec c 10) as [->|Hc].
  - destruct a as [|d a]; [reflexivity|].
    rewrite IH; [reflexivity|]. right. exact H.
  - destruct a as [|d a]; [simpl in H; congruence|].
    rewrite IH by (right; exact H).
    destruct (Extractor.split_lines (d :: a)) as [|line rest] eqn:E; [|reflexivity].
    exfalso. apply (f_equal (@concat char)) in E. rewrite split_lines_concat in E. discriminate.
Qed.

Lemma rstrip_newlines_line (l : text) :
  l <> [] -> last l <> Some 10%N -> Extractor.rstrip_newlines (l ++ [10%N]) = l.
Proof.
  induction l as [|c l IH]; intros Hne Hl; [contradiction|].
  destruct l as [|d l].
  - simpl. destruct (N.eqb_spec c 10) as [->|_]; [exfalso; apply Hl; reflexivity | reflexivity].
  - change ((c :: d :: l) ++ [10%N]) with (c :: ((d :: l) ++ [10%N])).
    cbn [Extractor.rstrip_newlines]. rewrite IH; [reflexivity | discriminate | exact Hl].
Qed.

Lemma strip_prefix_app (p s : text) : Extractor.strip_prefix p (p ++ s) = Some s.
Proof.
  induction p as [|a p IH]; simpl; [destruct s; reflexivity|].
  rewrite N.eqb_refl. exact IH.
Qed.

Lemma strip_suffix_app (p s : text) : Extractor.strip_suffix p (s ++ p) = Some s.
Proof.
  unfold Extractor.strip_suffix. rewrite reverse_app, strip_prefix_app. simpl.
  rewrite reverse_involutive. reflexivity.
Qed.

Lemma existsb_newline (name : text) : 10%N ∉ name -> existsb (N.eqb 10) name = false.
Proof.
  induction name as [|c name IH]; intros H; [reflexivity|].
  apply not_elem_of_cons in H as [Hc Hn]. cbn [existsb].
  destruct (N.eqb_spec 10 c) as [E|_]; [congruence|]. apply IH, Hn.
Qed.

Lemma separator_matches (name : text) :
  name <> [] -> 10%N ∉ name ->
  Extractor.SEPARATOR_PATTERN (lit "===== FILE: " ++ name ++ lit " =====") = Some name.
Proof.
  intros Hne Hnl. unfold Extractor.SEPARATOR_PATTERN.
  rewrite strip_prefix_app. simpl. rewrite strip_suffix_app. simpl.
  rewrite (existsb_newline name Hnl).
  destruct name; [contradiction | reflexivity].
Qed.

Lemma separator_line (name : text) :
  name <> [] -> 10%N ∉ name ->
  Extractor.SEPARATOR_PATTERN (Extractor.rstrip_newlines (Combiner.separator name))
  = Some name.
Proof.
  intros Hne Hnl. unfold Combiner.separator.
  replace (lit "===== FILE: " ++ name ++ lit " =====" ++ [10%N])
    with ((lit "===== FILE: " ++ name ++ lit " =====") ++ [10%N])
    by (rewrite <- !app_assoc; reflexivity).
  rewrite rstrip_newlines_line.
  - apply separator_matches; assumption.
  - discriminate.
  - rewrite app_assoc, last_app. discriminate.
Qed.

Lemma content_written_whole_lines (read : text + text) :
  Combiner.content_written read = [] \/ last (Combiner.content_written read) = Some 10%N.
Proof.
  destruct read as [stored|message]; [|left; reflexivity].
  unfold Combiner.content_written. cbv zeta.
  destruct (universal_newlines stored) as [|c content] eqn:E; [left; reflexivity|].
  right. rewrite bool_decide_eq_false_2 by discriminate. cbn [negb andb].
  unfold ends_with_newline.
  destruct (last (c :: content)) as [d|] eqn:L.
  - destruct (N.eqb_spec d 10) as [->|Hd].
    + simpl. rewrite app_nil_r. exact L.
    + assert (E' : forall X Y : bool, match d with 10%N => X | _ => Y end = Y).
      { intros X Y. destruct d as [|p]; [reflexivity|].
        do 4 (destruct p as [p|p|]; try reflexivity). contradiction. }
      rewrite E'. simpl negb. cbv iota. apply last_snoc.
  - simpl negb. cbv iota. apply last_snoc.
Qed.

Lemma content_written_no_cr (read : text + text) : 13%N ∉ Combiner.content_written read.
Proof.
  destruct read as [stored|message]; [|apply not_elem_of_nil].
  unfold Combiner.content_written. cbv zeta.
  apply not_elem_of_app. split; [apply universal_newlines_no_cr|].
  destruct (_ && _); [|apply not_elem_of_nil].
  apply not_elem_of_cons. split; [discriminate | apply not_elem_of_nil].
Qed.

Lemma separator_no_cr (name : text) : 13%N ∉ name -> 13%N ∉ Combiner.separator name.
Proof.
  intros H. unfold Combiner.separator.
  rewrite !not_elem_of_app. repeat split; try exact H.
  - intros Hin. vm_compute in Hin. repeat (apply elem_of_cons in Hin as [Hin|Hin]; [discriminate|]).
    apply elem_of_nil in Hin. exact Hin.
  - intros Hin. vm_compute in Hin. repeat (apply elem_of_cons in Hin as [Hin|Hin]; [discriminate|]).
    apply elem_of_nil in Hin. exact Hin.
  - apply not_elem_of_cons. split; [discriminate | apply not_elem_of_nil].
Qed.

Lemma separator_is_one_line (name rest : text) :
  10%N ∉ name ->
  Extractor.split_lines (Combiner.separator name ++ rest)
  = Combiner.separator name :: Extractor.split_lines rest.
Proof.
  intros H. unfold Combiner.separator.
  replace ((lit "===== FILE: " ++ name ++ lit " =====" ++ [10%N]) ++ rest)
    with ((lit "===== FILE: " ++ name ++ lit " =====") ++ 10%N :: rest)
    by (rewrite <- !app_assoc; reflexivity).
  rewrite split_lines_line.
  - rewrite <- !app_assoc. reflexivity.
  - rewrite !not_elem_of_app. repeat split; try exact H.
    + intros Hin. vm_compute in Hin.
      repeat (apply elem_of_cons in Hin as [Hin|Hin]; [discriminate|]).
      apply elem_of_nil in Hin. exact Hin.
    + intros Hin. vm_compute in Hin.
      repeat (apply elem_of_cons in Hin as [Hin|Hin]; [discriminate|]).
      apply elem_of_nil in Hin. exact Hin.
Qed.

Lemma written_lines (files : list (text * (text + text))) :
  Forall (fun f => 10%N ∉ f.1) files ->
  Extractor.split_lines (concat (map Combiner.block files))
  = concat (map block_lines files).
Proof.
  induction files as [|f files IH]; intros H; [reflexivity|].
  inversion H as [|? ? Hf Hfiles]; subst. cbn [map concat].
  unfold Combiner.block at 1. rewrite <- app_assoc.
  rewrite separator_is_one_line by exact Hf.
  rewrite split_lines_app by apply content_written_whole_lines.
  rewrite (IH Hfiles). reflexivity.
Qed.

Lemma written_no_cr (files : list (text * (text + text))) :
  Forall (fun f => 13%N ∉ f.1) files -> 13%N ∉ concat (map Combiner.block files).
Proof.
  induction files as [|f files IH]; intros H; [apply not_elem_of_nil|].
  inversion H as [|? ? Hf Hfiles]; subst. cbn [map concat].
  unfold Combiner.block. rewrite !not_elem_of_app.
  repeat split; [apply separator_no_cr, Hf | apply content_written_no_cr | apply IH, Hfiles].
Qed.

Section Extraction.

Variable path_str : text -> text.

Lemma foldl_plain_lines (st : Extractor.state) (lines : list text) (p : text) :
  Extractor.current_file_path st = Some p ->
  Forall Extractor.plain_line lines ->
  foldl (Extractor.step path_str) st lines =
  {| Extractor.file_count := Extractor.file_count st;
     Extractor.current_file_path := Some p;
     Extractor.current_content_lines := Extractor.current_content_lines st ++ lines;
     Extractor.writes := Extractor.writes st;
     Extractor.printed := Extractor.printed st |}.
Proof.
  intros Hp Hl. revert st Hp.
  induction Hl as [|line lines Hline _ IH]; intros st Hp.
  - simpl. rewrite app_nil_r. destruct st; simpl in *. rewrite Hp. reflexivity.
  - simpl. rewrite IH.
    + unfold Extractor.step. rewrite Hline, Hp. simpl. rewrite <- app_assoc. reflexivity.
    + unfold Extractor.step. rewrite Hline, Hp. reflexivity.
Qed.

Lemma foldl_plain_lines_none (st : Extractor.state) (lines : list text) :
  Extractor.current_file_path st = None ->
  Forall Extractor.plain_line lines ->
  foldl (Extractor.step path_str) st lines = st.
Proof.
  intros Hp Hl. revert st Hp.
  induction Hl as [|line lines Hline _ IH]; intros st Hp; [reflexivity|].
  simpl. assert (E : Extractor.step path_str st line = st).
  { unfold Extractor.step. rewrite Hline, Hp. reflexivity. }
  rewrite E. apply IH, Hp.
Qed.

Lemma extract_blocks (files : list (text * (text + text))) (st : Extractor.state) :
  Forall (portable_file path_str) files ->
  let st' := Extractor.write_current_file
               (foldl (Extractor.step path_str) st (concat (map block_lines files))) in
  Extractor.writes st' =
    Extractor.writes (Extractor.write_current_file st)
    ++ map (fun f => (f.1, Combiner.content_written f.2)) files /\
  Extractor.file_count st' =
    Extractor.file_count (Extractor.write_current_file st) + Z.of_nat (length files) /\
  Extractor.printed st' =
    Extractor.printed (Extractor.write_current_file st)
    ++ map (fun f => lit "Extracted: " ++ f.1) files.
Proof.
  intros H. revert st. induction H as [|f files Hf _ IH]; intros st; cbv zeta.
  - simpl. rewrite !app_nil_r, Z.add_0_r. auto.
  - destruct Hf as ((Hne & Hnl & Hcr & Hstr) & Hplain).
    set (st2 := {| Extractor.file_count :=
                     Extractor.file_count (Extractor.write_current_file st);
                   Extractor.current_file_path := Some f.1;
                   Extractor.current_content_lines :=
                     Extractor.split_lines (Combiner.content_written f.2);
                   Extractor.writes :=
                     Extractor.writes (Extractor.write_current_file st);
                   Extractor.printed :=
                     Extractor.printed (Extractor.write_current_file st) |}).
    assert (E : foldl (Extractor.step path_str) st (concat (map block_lines (f :: files)))
                = foldl (Extractor.step path_str) st2 (concat (map block_lines files))).
    { cbn [map concat]. unfold block_lines at 1.
      change ((?x :: ?l) ++ ?r) with (x :: (l ++ r)). cbn [foldl].
      rewrite foldl_app. f_equal.
      unfold Extractor.step at 2. rewrite (separator_line f.1 Hne Hnl), Hstr.
      erewrite foldl_plain_lines; [ | reflexivity | exact Hplain ]. reflexivity. }
    rewrite E. destruct (IH st2) as (IHw & IHc & IHp).
    rewrite IHw, IHc, IHp. unfold Extractor.write_current_file at 1 3 5.
    unfold st2.
    cbn [Extractor.current_file_path Extractor.writes Extractor.file_count
         Extractor.printed Extractor.current_content_lines].
    rewrite split_lines_concat.
    rewrite <- !app_assoc. cbn [app length map].
    repeat split; try reflexivity.
    rewrite Nat2Z.inj_succ, <- Z.add_assoc, Z.add_1_l. reflexivity.
Qed.



End Extraction.

(** The extraction of a combined text, for portable files. *)
Lemma extract_combined (path_str : text -> text) (files : list (text * (text + text))) :
  Forall (portable_file path_str) files ->
  let st := Extractor.extract_files path_str
              (Combiner.written (Combiner.combine_files files)) in
  Extractor.writes st = map (fun f => (f.1, Combiner.content_written f.2)) files /\
  Extractor.file_count st = Z.of_nat (length files) /\
  Extractor.printed st = map (fun f => lit "Extracted: " ++ f.1) files.
Proof.
  intros H. cbv zeta. unfold Extractor.extract_files, Combiner.combine_files.
  cbn [Combiner.written].
  rewrite universal_newlines_id.
  2:{ apply written_no_cr. eapply Forall_impl; [exact H|].
      intros f ((_ & _ & Hcr & _) & _). exact Hcr. }
  rewrite written_lines.
  2:{ eapply Forall_impl; [exact H|]. intros f ((_ & Hnl & _) & _). exact Hnl. }
  destruct (extract_blocks path_str files Extractor.initial H) as (Hw & Hc & Hp).
  rewrite Hw, Hc, Hp. auto.
Qed.

Lemma universal_newlines_app (a b : text) :
  a = [] \/ last a = Some 10%N ->
  universal_newlines (a ++ b) = universal_newlines a ++ universal_newlines b.
Proof.
  induction a as [a IH] using universal_newlines_length_ind.
  intros [->|Hl]; [reflexivity|].
  destruct a as [|c a]; [discriminate|].
  assert (Htail : forall d a', a = d :: a' -> last (d :: a') = Some 10%N).
  { intros d a' ->. exact Hl. }
  change ((c :: a) ++ b) with (c :: (a ++ b)). cbn [universal_newlines].
  destruct (N.eqb_spec c 13) as [->|Hc].
  - destruct a as [|d a']; [discriminate|].
    change ((d :: a') ++ b) with (d :: (a' ++ b)). cbv iota.
    destruct (N.eqb_spec d 10) as [->|Hd].
    + rewrite (IH a'); [reflexivity | simpl; lia |].
      destruct a' as [|e a'']; [left; reflexivity | right; exact Hl].
    + change (d :: (a' ++ b)) with ((d :: a') ++ b).
      rewrite (IH (d :: a')); [reflexivity | simpl; lia | right; exact Hl].
  - rewrite (IH a); [reflexivity | simpl; lia |].
    destruct a as [|d a']; [left; reflexivity | right; exact Hl].
Qed.

Lemma universal_newlines_last (a : text) :
  last a = Some 10%N -> last (universal_newlines a) = Some 10%N.
Proof.
  induction a as [a IH] using universal_newlines_length_ind.
  intros Hl. destruct a as [|c a]; [discriminate|].
  cbn [universal_newlines].
  destruct (N.eqb_spec c 13) as [->|Hc].
  - destruct a as [|d a']; [discriminate|].
    destruct (N.eqb_spec d 10) as [->|Hd].
    + destruct a' as [|e a'']; [reflexivity|].
      rewrite last_cons, (IH (e :: a'')); [reflexivity | simpl; lia | exact Hl].
    + rewrite last_cons, (IH (d :: a')); [reflexivity | simpl; lia | exact Hl].
  - destruct a as [|d a'].
    + simpl in Hl. injection Hl as ->. reflexivity.
    + rewrite last_cons, (IH (d :: a')); [reflexivity | simpl; lia | exact Hl].
Qed.




(** ** The combiner and the extractor: properties *)

(** X11 — Round trip.  When every collected file has a portable name (not
    empty, on one line, without carriage return, printed by the path
    library as it is) and no line of its content is a separator line,
    extracting the combined text writes exactly the collected files, in
    order, each under its name with the content the combiner wrote for
    it: the content as read, ending in a line feed unless empty, and
    nothing for a file that could not be read.  The number of files the
    extractor returns is the number the combiner returned. *)
Theorem extract_combine_round_trip (path_str : text -> text)
    (files : list (text * (text + text))) :
  Forall (portable_file path_str) files ->
  let combined := Combiner.combine_files files in
  let st := Extractor.extract_files path_str (Combiner.written combined) in
  Extractor.writes st = map (fun f => (f.1, Combiner.content_written f.2)) files /\
  Extractor.file_count st = Combiner.returned combined /\
  Forall2 (fun (f : text * (text + text)) w => forall stored : text,
             f.2 = inl stored -> 13%N ∉ stored ->
             stored = [] \/ last stored = Some 10%N ->
             w = (f.1, stored))
          files (Extractor.writes st).
Proof.
  intros H. cbv zeta.
  destruct (extract_combined path_str files H) as (Hw & Hc & _).
  split; [exact Hw|]. split; [exact Hc|].
  rewrite Hw. apply Forall2_map_self. intros f stored Hf Hcr Hnl.
  cbv beta. f_equal. rewrite Hf. unfold Combiner.content_written. cbv zeta.
  rewrite (universal_newlines_id stored Hcr).
  destruct Hnl as [->|Hl]; [reflexivity|].
  unfold ends_with_newline. rewrite Hl. cbn [negb]. rewrite andb_false_r.
  apply app_nil_r.
Qed.


(** X13 — Text before the first separator.  Lines that come before the
    first separator line are dropped: a stored text with such lines in
    front is extracted exactly as the text without them. *)
Theorem preamble_is_dropped (path_str : text -> text) (pre stored : text) :
  pre = [] \/ last pre = Some 10%N ->
  Forall Extractor.plain_line (Extractor.split_lines (universal_newlines pre)) ->
  Extractor.extract_files path_str (pre ++ stored) =
  Extractor.extract_files path_str stored.
Proof.
  intros Hl Hplain. unfold Extractor.extract_files.
  rewrite (universal_newlines_app pre stored Hl).
  rewrite split_lines_app.
  2:{ destruct Hl as [->|Hl]; [left; reflexivity|].
      right. apply universal_newlines_last, Hl. }
  rewrite foldl_app.
  rewrite (foldl_plain_lines_none path_str Extractor.initial _ eq_refl Hplain).
  reflexivity.
Qed.


(** X15 — What the combiner reports.  The combined text is empty when no
    file was collected and ends in a line feed otherwise; the number the
    combiner returns counts every collected file, so it is the number of
    files read plus the number of warnings printed for files that could
    not be read. *)
Theorem combiner_report (files : list (text * (text + text))) :
  let combined := Combiner.combine_files files in
  match files with
  | [] => Combiner.written combined = []
  | _ :: _ => last (Combiner.written combined) = Some 10%N
  end /\
  Combiner.returned combined =
    Z.of_nat (length (List.filter (fun f => match f.2 with inl _ => true | inr _ => false end)
                                  files))
    + Z.of_nat (length (Combiner.warnings combined)).
Proof.
  cbv zeta. split.
  - unfold Combiner.combine_files. cbn [Combiner.written].
    destruct files as [|f files]; [reflexivity|].
    revert f. induction files as [|g files IH]; intros f.
    + cbn [map concat]. rewrite app_nil_r. unfold Combiner.block.
      destruct (content_written_whole_lines f.2) as [->|Hl].
      * rewrite app_nil_r. unfold Combiner.separator.
        rewrite !app_assoc. apply last_snoc.
      * rewrite last_app, Hl. reflexivity.
    + specialize (IH g). cbn [map concat] in IH |- *.
      rewrite last_app, IH. reflexivity.
  - unfold Combiner.combine_files. cbn [Combiner.returned Combiner.warnings].
    induction files as [|f files IH]; [reflexivity|].
    cbn [length map concat List.filter]. rewrite length_app, Nat2Z.inj_succ, IH.
    destruct f as [name [stored|message]];
      cbn [Combiner.warning fst snd length]; lia.
Qed.

(** ** Instances of these properties *)

Lemma events_are_input_rows : Forall (input_row "when") events.
Proof.
  unfold events.
  repeat (apply List.Forall_cons; [| ]); try apply List.Forall_nil;
    (split; [ first [ left; reflexivity | right; eexists; reflexivity ]
            | split; [ eexists; reflexivity
                     | split; repeat constructor ] ]).
Defined.

Lemma unix_path_keeps_table_witness :
  Forall (fun r => text_column "when" r /\ lacks UNIX_COLUMNS r) events /\
  exists out,
    parse_with_unix_timestamps Reference.regex_digit events "when" = Ok out /\
    Forall2 (fun r r' : row => r' !! "note"%string = r !! "note"%string) events out.
Proof.
  assert (H : Forall (fun r => text_column "when" r /\ lacks UNIX_COLUMNS r) events).
  { eapply Forall_impl; [exact events_are_input_rows|].
    intros r (Ht & _ & Hu & _). split; assumption. }
  split; [exact H|].
  destruct (unix_path_keeps_table Reference.regex_digit events "when" H)
    as (out & Hout & Hall).
  exists out. split; [exact Hout|].
  eapply Forall2_impl; [exact Hall|].
  intros r r' (Hkeep & _). apply Hkeep. discriminate.
Defined.


Lemma null_text_is_unparseable_witness :
  "when"%string <> "row_id"%string /\
  Forall (input_row "when") events /\
  In (event_row 1 Null (lit "second")) events /\
  event_row 1 Null (lit "second") !! "when"%string = Some Null /\
  exists res,
    comprehensive_parse Reference.regex_digit Reference.strptime events "when" = Ok res /\
    In (select_row ["row_id"%string; "when"%string] (event_row 1 Null (lit "second")))
       (unparseable res).
Proof.
  assert (Hin : In (event_row 1 Null (lit "second")) events) by (simpl; tauto).
  split; [discriminate|]. split; [exact events_are_input_rows|].
  split; [exact Hin|]. split; [reflexivity|].
  destruct (null_text_is_unparseable Reference.regex_digit Reference.strptime
              events "when" (event_row 1 Null (lit "second"))
              ltac:(discriminate) events_are_input_rows Hin eq_refl)
    as (res & Hres & _ & Hun & _).
  exists res. split; [exact Hres | exact Hun].
Defined.


Lemma failure_listing_other_column_witness :
  "when"%string <> "row_id"%string /\
  "when"%string <> "datetime_str"%string /\
  Forall (input_row "when") events /\
  exists res,
    comprehensive_parse Reference.regex_digit Reference.strptime events "when" = Ok res /\
    (unparseable res <> [] ->
     log_unparseable Reference.py_str Reference.py_repr res
       = Raise (KeyError "datetime_str")).
Proof.
  split; [discriminate|]. split; [discriminate|]. split; [exact events_are_input_rows|].
  destruct (failure_listing_other_column Reference.regex_digit Reference.strptime
              Reference.py_str Reference.py_repr events "when"
              ltac:(discriminate) ltac:(discriminate) events_are_input_rows)
    as (res & Hres & Hraise & _).
  exists res. split; [exact Hres | exact Hraise].
Defined.

Lemma format_path_keeps_table_witness :
  registry (Some [month_first; day_first]) <> [] /\
  "when"%string <> "row_id"%string /\
  Forall (fun r => text_column "when" r /\ is_Some (r !! "row_id"%string) /\
                   lacks FORMAT_COLUMNS r) events /\
  exists res,
    parse_datetimes_multi_format Reference.strptime events "when"
      (Some [month_first; day_first]) = Ok res /\
    success_count res + failure_count res = 4.
Proof.
  assert (H : Forall (fun r => text_column "when" r /\ is_Some (r !! "row_id"%string) /\
                               lacks FORMAT_COLUMNS r) events).
  { eapply Forall_impl; [exact events_are_input_rows|].
    intros r (Ht & Hid & _ & Hf). repeat split; assumption. }
  split; [discriminate|]. split; [discriminate|]. split; [exact H|].
  destruct (format_path_keeps_table Reference.strptime events "when"
              (Some [month_first; day_first]) ltac:(discriminate) ltac:(discriminate) H)
    as (res & Hres & _ & _ & Hsum).
  exists res. split; [exact Hres | exact Hsum].
Defined.

Lemma epoch_conversion_never_wraps_witness :
  (forall c, (c < 128)%N -> Reference.regex_digit c = is_ascii_digit c) /\
  unix_int Reference.regex_digit 10 (lit "1710513000") = Some 1710513000 /\
  wrap64 (1710513000 * 1000000) = 1710513000 * 1000000.
Proof.
  assert (H : unix_int Reference.regex_digit 10 (lit "1710513000") = Some 1710513000)
    by (vm_compute; reflexivity).
  split; [exact reference_regex_digit_ascii|]. split; [exact H|].
  exact (proj2 (proj2 (proj1 (epoch_conversion_never_wraps Reference.regex_digit
                                reference_regex_digit_ascii (lit "1710513000")
                                1710513000) H))).
Defined.

Lemma collected_is_portable : Forall (portable_file (fun name => name)) collected.
Proof.
  unfold collected.
  repeat (apply List.Forall_cons; [| ]); try apply List.Forall_nil;
    (split; [ split; [discriminate|];
              split; [apply (bool_decide_unpack _); vm_compute; exact I|];
              split; [apply (bool_decide_unpack _); vm_compute; exact I | reflexivity]
            | vm_compute; repeat constructor ]).
Defined.

Lemma extract_combine_round_trip_witness :
  Forall (portable_file (fun name => name)) collected /\
  Extractor.writes
    (Extractor.extract_files (fun name => name)
       (Combiner.written (Combiner.combine_files collected)))
  = [ (lit "docs/readme.md", lit "title" ++ [10%N] ++ lit "body" ++ [10%N]);
      (lit "logo.bin", []) ].
Proof.
  split; [exact collected_is_portable|].
  exact (proj1 (extract_combine_round_trip (fun name => name) collected
                  collected_is_portable)).
Defined.

Lemma preamble_is_dropped_witness :
  last (lit "notes" ++ [10%N]) = Some 10%N /\
  Forall Extractor.plain_line
         (Extractor.split_lines (universal_newlines (lit "notes" ++ [10%N]))) /\
  Extractor.extract_files (fun name => name)
    ((lit "notes" ++ [10%N]) ++ Combiner.separator (lit "a.txt") ++ lit "x")
  = Extractor.extract_files (fun name => name)
      (Combiner.separator (lit "a.txt") ++ lit "x").
Proof.
  assert (H : Forall Extractor.plain_line
                (Extractor.split_lines (universal_newlines (lit "notes" ++ [10%N]))))
    by (vm_compute; repeat constructor).
  split; [reflexivity|]. split; [exact H|].
  exact (preamble_is_dropped (fun name => name) (lit "notes" ++ [10%N])
           (Combiner.separator (lit "a.txt") ++ lit "x") (or_intror eq_refl) H).
Defined.


